(** * The Dockerfile image builder of flyctl

    A shallow embedding of [internal/build/imgsrc/dockerfile_builder.go]:
    [makeBuildContext], [Run], [normalizeBuildArgsForDocker],
    [runClassicBuild], [solveOptFromImageOptions], [runBuildKitBuild] and
    [pushToFly].

    The builder talks to a docker daemon, the file system and a registry.
    Everything it obtains from them is read from a [World] record, one
    field per call the code makes; everything it does to them that the
    specification speaks about is written to a chronological [log] of
    [Event]s.  Tracing spans and debug output are not modelled. *)

From Stdlib Require Import ZArith Ascii.
From stdpp Require Import gmap strings list fin_maps.

Local Open Scope string_scope.
Local Open Scope Z_scope.
Local Open Scope list_scope.

(** ** Errors *)

(** [ctx.Err()] of a finished context. *)
Inductive ctx_err := Canceled | DeadlineExceeded.

(** The error values the builder creates, wraps or inspects. *)
Inductive error :=
| JSONError (Code : Z) (Message : string)       (* *jsonmessage.JSONError *)
| Wrapped (msg : string) (cause : error)        (* errors.Wrap, fmt.Errorf with %w *)
| Opaque (msg : string)                         (* fmt.Errorf, errors of the callees *)
| ContextErr (c : ctx_err)                      (* context.Canceled, context.DeadlineExceeded *)
| RegistryUnauthorizedError (Tag : string).     (* *RegistryUnauthorizedError *)

Inductive result (A : Type) :=
| Ok (a : A)
| Err (e : error).
Arguments Ok {A} a.
Arguments Err {A} e.

(** [errors.As(err, &msgerr)] for [msgerr : *jsonmessage.JSONError]: the
    first JSONError on the unwrap chain. *)
Fixpoint errors_As_JSONError (e : error) : option (Z * string) :=
  match e with
  | JSONError c m => Some (c, m)
  | Wrapped _ cause => errors_As_JSONError cause
  | _ => None
  end.

(** ** Data of the build *)

Record ImageOptions := {
  WorkingDir : string;
  DockerfilePath : string;
  IgnorefilePath : string;
  Tag : string;
  Target : string;
  NoCache : bool;
  Publish : bool;
  BuildArgs : gmap string string;
  Label : gmap string string;
  BuildSecrets : gmap string string;
}.

Record DeploymentImage := {
  ID : string;
  di_Tag : string;
  Size : Z;
}.

Record archiveOptions := {
  sourcePath : string;
  compressed : bool;
  exclusions : list string;
  additions : gmap string (list Byte.byte);
}.

(** [types.ImageBuildOptions], the fields [runClassicBuild] sets. *)
Record ImageBuildOptions := {
  ibo_Tags : list string;
  ibo_BuildArgs : gmap string (option string);
  ibo_AuthConfigs : string;
  ibo_Platform : string;
  ibo_Dockerfile : string;
  ibo_Target : string;
  ibo_NoCache : bool;
  ibo_Labels : gmap string string;
}.

Record ExportEntry := {
  ee_Type : string;
  ee_Attrs : gmap string string;
}.

Inductive SessionAttachable :=
| BuildkitAuthProvider (token : string)
| SecretsFromMap (secrets : gmap string (list Byte.byte)).

(** [client.SolveOpt], the fields the builder sets. *)
Record SolveOpt := {
  Frontend : string;
  FrontendAttrs : gmap string string;
  LocalDirs : gmap string string;
  Exports : list ExportEntry;
  Session : list SessionAttachable;
}.

(** [types.Info], the fields [Run] reads. *)
Record Info := {
  ServerVersion : string;
  OSType : string;
  Architecture : string;
  OSVersion : string;
}.

(** [types.ImageInspect], the fields [Run] reads. *)
Record ImageInspect := {
  ii_ID : string;
  ii_Size : Z;
}.

(** ** The JSON message stream of the daemon *)

Record JSONMessage := {
  Status : string;
  Aux : option string;                 (* *json.RawMessage *)
  Error : option (Z * string);         (* *JSONError: Code, Message *)
}.

(** What the decoder yields for the next element of a response body; the
    end of the list is [io.EOF]. *)
Inductive StreamItem :=
| Decoded (m : JSONMessage)
| Undecodable (e : error).

(** ** The environment of one [Run] *)

Record World := {
  (* dockerClientFactory *)
  mode_IsAvailable : bool;
  IsLocal : bool;
  IsRemote : bool;
  buildFn : option error;
  (* file system and path/filepath *)
  FileExists : string → bool;
  ResolveDockerfile : string → string;
  isPathInRoot : string → string → bool;
  filepath_Rel : string → string → result string;
  filepath_ToSlash : string → string;
  filepath_Base : string → string;
  filepath_Dir : string → string;
  os_ReadFile : string → result (list Byte.byte);
  readDockerignore : string → string → string → result (list string);
  archiveDirectory : archiveOptions → option error;
  (* docker daemon *)
  buildkitEnabled : result bool;
  docker_Info : result Info;
  docker_ImageBuild : option archiveOptions → ImageBuildOptions → result (list StreamItem);
  docker_ImagePush : nat → string → result (list StreamItem);
  docker_ImageInspectWithRaw : string → result ImageInspect;
  json_Unmarshal_BuildResult : string → string * option error;
  (* buildkit client *)
  client_New : option error;
  bc_Solve : SolveOpt → result (gmap string string);
  DisplaySolveStatus : option error;
  display_fails_first : bool;
  (* the caller's context and credentials *)
  ctx_Done : nat → option ctx_err;
  Tokens_Docker : string;
}.

(** ** Observable effects *)

Inductive Phase := Build | BuilderInit | ContextBuild | ImageBuild | Push.

Inductive Event :=
| Start (p : Phase)                      (* build.<Phase>Start() *)
| Finish (p : Phase)                     (* build.<Phase>Finish() *)
| Done (msg : string)                    (* TextBlock.Done, cmdfmt.PrintDone *)
| AuxParseFailure (e : error)            (* fmt.Fprintf(streams.Out, "failed to parse aux message: %v", err) *)
| SendNoData (metric : string)           (* metrics.SendNoData *)
| ImageBuildCall (r : option archiveOptions) (o : ImageBuildOptions)
| SolveCall (o : SolveOpt)
| ImagePushCall (tag : string) (auth : string)
| OnRetry (n : nat) (e : error)          (* the retry.OnRetry hook *)
| Sleep (d : Z)                          (* the retry delay elapsed *)
| ClearDeploymentTags (tag : string)
| DockerClose.

Definition log := list Event.

(** What [Run] does in the end: it returns to its caller, or it ends the
    process. *)
Inductive outcome :=
| Returned (img : option DeploymentImage) (warning : string) (err : option error)
| Exited (code : Z).

(** ** Programs: a log writer with early exit

    [Next a] continues with [a]; [Stop o] is a [return] statement of [Run]
    or [os.Exit]; [Spin] is a loop that is still running when the fuel of
    the model is used up. *)

Inductive ctl (A : Type) :=
| Next (a : A)
| Stop (o : outcome)
| Spin.
Arguments Next {A} a.
Arguments Stop {A} o.
Arguments Spin {A}.

Definition prog (A : Type) : Type := ctl A * log.

Global Instance prog_ret : MRet prog := λ A a, (Next a, []).

Global Instance prog_bind : MBind prog := λ A B k m,
  match m with
  | (Next a, l) => let '(c, l') := k a in (c, l ++ l')
  | (Stop o, l) => (Stop o, l)
  | (Spin, l) => (Spin, l)
  end.

Definition emit (e : Event) : prog unit := (Next tt, [e]).

Definition return_ {A} (img : option DeploymentImage) (warning : string)
    (err : option error) : prog A :=
  (Stop (Returned img warning err), []).

Definition os_Exit {A} (code : Z) : prog A := (Stop (Exited code), []).

Definition spin {A} : prog A := (Spin, []).

(** [defer]: the deferred calls run when the body returns, not when it
    ends the process. *)
Definition defer_ {A} (deferred : log) (body : prog A) : prog A :=
  match body with
  | (Stop (Returned img w e), l) => (Stop (Returned img w e), l ++ deferred)
  | other => other
  end.

(** The result of a run and its log; [None] while the run has not ended. *)
Definition exec (p : prog outcome) : option outcome * log :=
  match p with
  | (Next o, l) => (Some o, l)
  | (Stop o, l) => (Some o, l)
  | (Spin, l) => (None, l)
  end.

(** ** jsonmessage.DisplayJSONMessagesStream

    Messages with an auxiliary payload go to the callback (when there is
    one) and are not displayed; displaying a message that carries an error
    ends the stream with that error, an authentication failure (401) with
    an error of its own. *)

Definition JSONMessage_Display (m : JSONMessage) : option error :=
  match Error m with
  | Some (code, message) =>
      if code =? 401 then Some (Opaque "authentication is required")
      else Some (JSONError code message)
  | None => None
  end.

Fixpoint DisplayJSONMessagesStream {S : Type} (body : list StreamItem)
    (auxCallback : option (JSONMessage → S → S * log)) (s : S)
    : (S * option error) * log :=
  match body with
  | [] => ((s, None), [])
  | Undecodable e :: _ => ((s, Some e), [])
  | Decoded jm :: rest =>
      match Aux jm with
      | Some _ =>
          let '(s', l) :=
            match auxCallback with
            | Some cb => cb jm s
            | None => (s, [])
            end in
          let '(r, l') := DisplayJSONMessagesStream rest auxCallback s' in
          (r, l ++ l')
      | None =>
          match JSONMessage_Display jm with
          | Some e => ((s, Some e), [])
          | None => DisplayJSONMessagesStream rest auxCallback s
          end
      end
  end.

(** ** retry.Do, as [pushToFly] configures it

    [retry.Attempts(0)] selects the loop that retries until the function
    succeeds; [retry.Context(ctx)] makes the loop give up with [ctx.Err()]
    when the context is done before the first call or during a delay;
    [retry.DelayType(retry.FixedDelay)] makes every delay [delay].
    [retryableFunc i] is the call number [i], counted from 0; the hook is
    called with the number of failures so far, counted from 1.
    [ctx_Done w 0] is the state of the context before the first call,
    [ctx_Done w n] its state during the delay after the [n]-th failure. *)

Definition Second : Z := 1000000000.

Fixpoint retry_loop (w : World) (retryableFunc : nat → prog (option error))
    (delay : Z) (fuel n : nat) : prog (option error) :=
  match fuel with
  | O => spin
  | S fuel' =>
      err ← retryableFunc n;
      match err with
      | None => mret None
      | Some e =>
          emit (OnRetry (S n) e);;
          match ctx_Done w (S n) with
          | Some c => mret (Some (ContextErr c))
          | None => emit (Sleep delay);; retry_loop w retryableFunc delay fuel' (S n)
          end
      end
  end.

Definition retry_Do (w : World) (retryableFunc : nat → prog (option error))
    (delay : Z) (fuel : nat) : prog (option error) :=
  match ctx_Done w 0 with
  | Some c => mret (Some (ContextErr c))
  | None => retry_loop w retryableFunc delay fuel 0
  end.

(** ** pushToFly *)

Definition flyRegistryAuth (token : string) : string := token.

Definition pushFn (w : World) (tag : string) (i : nat) : prog (option error) :=
  emit (ImagePushCall tag (flyRegistryAuth (Tokens_Docker w)));;
  match docker_ImagePush w i tag with
  | Err e => mret (Some (Wrapped "error pushing image to registry" e))
  | Ok pushResp =>
      match DisplayJSONMessagesStream pushResp None tt with
      | ((_, Some e), l) => (Next (Some (Wrapped "error rendering push status stream" e)), l)
      | ((_, None), l) => (Next None, l)
      end
  end.

Definition access_denied : string :=
  "denied: requested access to the resource is denied".

(** The part of [pushToFly] after the retry loop. *)
Definition pushToFly_classify (err : option error) (tag : string) : option error :=
  match err ≫= errors_As_JSONError with
  | Some (_, message) =>
      if String.eqb message access_denied
      then Some (RegistryUnauthorizedError tag)
      else None
  | None => None
  end.

Definition pushToFly (w : World) (tag : string) (fuel : nat) : prog (option error) :=
  err ← retry_Do w (pushFn w tag) (3 * Second) fuel;
  mret (pushToFly_classify err tag).

(** ** makeBuildContext

    The stream it returns is read lazily from the archive options; the
    model returns the options the archive is made from. *)

Definition makeBuildContext (w : World) (dockerfile : string) (opts : ImageOptions)
    (isRemote : bool) : result archiveOptions :=
  let archiveOpts :=
    {| sourcePath := WorkingDir opts; compressed := isRemote;
       exclusions := []; additions := ∅ |} in
  let located : result (archiveOptions * string) :=
    if negb (isPathInRoot w dockerfile (WorkingDir opts)) then
      match os_ReadFile w dockerfile with
      | Err err => Err (Wrapped "error reading Dockerfile" err)
      | Ok dockerfileData =>
          Ok ({| sourcePath := sourcePath archiveOpts;
                 compressed := compressed archiveOpts;
                 exclusions := exclusions archiveOpts;
                 additions := {[ "Dockerfile" := dockerfileData ]} |}, "")
      end
    else
      match filepath_Rel w (WorkingDir opts) dockerfile with
      | Err err => Err err
      | Ok p => Ok (archiveOpts, filepath_ToSlash w p)
      end in
  match located with
  | Err err => Err err
  | Ok (archiveOpts, relativedockerfilePath) =>
      match readDockerignore w (WorkingDir opts) (IgnorefilePath opts)
              relativedockerfilePath with
      | Err err => Err (Wrapped "error reading .dockerignore" err)
      | Ok excludes =>
          let archiveOpts :=
            {| sourcePath := sourcePath archiveOpts;
               compressed := compressed archiveOpts;
               exclusions := excludes;
               additions := additions archiveOpts |} in
          match archiveDirectory w archiveOpts with
          | Some err => Err (Wrapped "error archiving build context" err)
          | None => Ok archiveOpts
          end
      end
  end.

(** ** normalizeBuildArgsForDocker *)

Definition normalizeBuildArgsForDocker (buildArgs : gmap string string)
    : result (gmap string (option string)) :=
  Ok (map_fold (λ k v out, <[k := Some v]> out) ∅ buildArgs).

(** ** runClassicBuild *)

Definition classicBuildOptions (w : World) (opts : ImageOptions)
    (dockerfilePath : string) (buildArgs : gmap string (option string))
    : ImageBuildOptions :=
  {| ibo_Tags := [Tag opts];
     ibo_BuildArgs := buildArgs;
     ibo_AuthConfigs := Tokens_Docker w;
     ibo_Platform := "linux/amd64";
     ibo_Dockerfile := dockerfilePath;
     ibo_Target := Target opts;
     ibo_NoCache := NoCache opts;
     ibo_Labels := Label opts |}.

(** The callback is only called on messages with a payload. *)
Definition idCallback (w : World) (m : JSONMessage) (imageID : string) : string * log :=
  match Aux m with
  | Some raw =>
      let '(aux_ID, err) := json_Unmarshal_BuildResult w raw in
      (aux_ID, match err with Some e => [AuxParseFailure e] | None => [] end)
  | None => (imageID, [])
  end.

Definition runClassicBuild (w : World) (r : option archiveOptions)
    (opts : ImageOptions) (dockerfilePath : string)
    (buildArgs : gmap string (option string)) : prog (result string) :=
  let options := classicBuildOptions w opts dockerfilePath buildArgs in
  emit (ImageBuildCall r options);;
  match docker_ImageBuild w r options with
  | Err err => mret (Err (Wrapped "error building with docker" err))
  | Ok body =>
      match DisplayJSONMessagesStream body (Some (idCallback w)) "" with
      | ((_, Some err), l) =>
          (Next (Err (Wrapped "error rendering build status stream" err)), l)
      | ((imageID, None), l) => (Next (Ok imageID), l)
      end
  end.

(** ** solveOptFromImageOptions *)

Definition solveOptFromImageOptions (w : World) (opts : ImageOptions)
    (dockerfilePath : string) (buildArgs : gmap string (option string)) : SolveOpt :=
  let attrs : gmap string string :=
    {[ "filename" := filepath_Base w dockerfilePath;
       "target" := Target opts;
       "platform" := "linux/amd64" ]} in
  let attrs := <["target" := Target opts]> attrs in
  let attrs := if NoCache opts then <["no-cache" := ""]> attrs else attrs in
  let attrs := map_fold (λ k v attrs, <["label:" +:+ k := v]> attrs) attrs (Label opts) in
  let attrs :=
    map_fold (λ k v attrs,
                match v with
                | None => attrs
                | Some v => <["build-arg:" +:+ k := v]> attrs
                end) attrs buildArgs in
  {| Frontend := "dockerfile.v0";
     FrontendAttrs := attrs;
     LocalDirs := {[ "dockerfile" := filepath_Dir w dockerfilePath;
                     "context" := WorkingDir opts ]};
     Exports := [ {| ee_Type := "moby"; ee_Attrs := {[ "name" := Tag opts ]} |} ];
     Session := [] |}.

(** ** runBuildKitBuild

    The two tasks of the group are modelled by their results: the group's
    wait returns the error of the task that failed first, and the image
    digest is read only when neither failed. *)

Definition ExporterImageDigestKey : string := "containerimage.digest".

Definition eg_Wait (w : World) (display : option error) (solve : option error)
    : option error :=
  match display, solve with
  | Some d, Some s => Some (if display_fails_first w then d else s)
  | Some d, None => Some d
  | None, s => s
  end.

Definition runBuildKitBuild (w : World) (opts : ImageOptions)
    (dockerfilePath : string) (buildArgs : gmap string (option string))
    : prog (result string) :=
  match client_New w with
  | Some err => mret (Err err)
  | None =>
      let options := solveOptFromImageOptions w opts dockerfilePath buildArgs in
      let secrets := String.list_byte_of_string <$> BuildSecrets opts in
      let options :=
        {| Frontend := Frontend options;
           FrontendAttrs := FrontendAttrs options;
           LocalDirs := LocalDirs options;
           Exports := Exports options;
           Session := Session options ++
                      [BuildkitAuthProvider (Tokens_Docker w); SecretsFromMap secrets] |} in
      emit (SolveCall options);;
      let res := bc_Solve w options in
      let solveErr := match res with Err err => Some err | Ok _ => None end in
      match eg_Wait w (DisplaySolveStatus w) solveErr, res with
      | Some err, _ => mret (Err err)
      | None, Ok ExporterResponse =>
          mret (Ok (default "" (ExporterResponse !! ExporterImageDigestKey)))
      | None, Err err => mret (Err err)
      end
  end.

(** ** Run *)

Definition when (b : bool) (p : prog unit) : prog unit :=
  if b then p else mret tt.

(** From [if opts.Publish] to the end. *)
Definition Run_publish (w : World) (opts : ImageOptions) (fuel : nat)
    (imageID : string) : prog outcome :=
  (if Publish opts then
     emit (Start Push);;
     err ← pushToFly w (Tag opts) fuel;
     match err with
     | Some err => emit (Finish Push);; return_ None "" (Some err)
     | None =>
         emit (Finish Push);;
         emit (Done "Pushing image done");;
         os_Exit 1
     end
   else mret tt);;
  match docker_ImageInspectWithRaw w imageID with
  | Err err => return_ None "" (Some (Wrapped "count not find built image" err))
  | Ok img =>
      let di := {| ID := ii_ID img; di_Tag := Tag opts; Size := ii_Size img |} in
      return_ (Some di) "" None
  end.

(** From [build.ImageBuildStart()] to the end. *)
Definition Run_build (w : World) (opts : ImageOptions) (fuel : nat)
    (dockerfile relDockerfile : string) (buildkitEnabled : bool)
    (buildContext : option archiveOptions) : prog outcome :=
  emit (Start ImageBuild);;
  match docker_Info w with
  | Err err =>
      when (IsRemote w) (emit (SendNoData "remote_builder_failure"));;
      emit (Finish ImageBuild);;
      emit (Finish Build);;
      return_ None "" (Some (Wrapped "error fetching docker server info" err))
  | Ok serverInfo =>
      emit (Done ("docker host: " +:+ ServerVersion serverInfo +:+ " " +:+
                  OSType serverInfo +:+ " " +:+ Architecture serverInfo));;
      match normalizeBuildArgsForDocker (BuildArgs opts) with
      | Err err =>
          emit (Finish ImageBuild);;
          emit (Finish Build);;
          return_ None "" (Some (Wrapped "error parsing build args" err))
      | Ok buildArgs =>
          imageID ←
            (if buildkitEnabled then
               r ← runBuildKitBuild w opts dockerfile buildArgs;
               match r with
               | Err err =>
                   when (IsRemote w) (emit (SendNoData "remote_builder_failure"));;
                   emit (Finish ImageBuild);;
                   emit (Finish Build);;
                   return_ None "" (Some (Wrapped "error building" err))
               | Ok imageID => mret imageID
               end
             else
               r ← runClassicBuild w buildContext opts relDockerfile buildArgs;
               match r with
               | Err err =>
                   when (IsRemote w) (emit (SendNoData "remote_builder_failure"));;
                   emit (Finish ImageBuild);;
                   emit (Finish Build);;
                   return_ None "" (Some (Wrapped "error building" err))
               | Ok imageID => mret imageID
               end);
          emit (Finish ImageBuild);;
          emit (Finish Build);;
          emit (Done "Building image done");;
          Run_publish w opts fuel imageID
      end
  end.

(** From [build.BuilderInitStart()] to the end. *)
Definition Run_init (w : World) (opts : ImageOptions) (fuel : nat)
    (dockerfile relDockerfile : string) : prog outcome :=
  emit (Start BuilderInit);;
  match buildFn w with
  | Some err =>
      emit (Finish Build);;
      emit (Finish BuilderInit);;
      return_ None "" (Some (Wrapped "error connecting to docker" err))
  | None =>
      defer_ [DockerClose]
        match buildkitEnabled w with
        | Err err =>
            emit (Finish Build);;
            emit (Finish BuilderInit);;
            return_ None "" (Some (Wrapped "error checking for buildkit support" err))
        | Ok buildkitEnabled =>
            emit (Finish BuilderInit);;
            defer_ (if IsLocal w then [ClearDeploymentTags (Tag opts)] else [])
              (buildContext ←
                 (if negb buildkitEnabled then
                    emit (Start ContextBuild);;
                    match makeBuildContext w dockerfile opts (IsRemote w) with
                    | Err err =>
                        emit (Finish Build);;
                        emit (Finish ContextBuild);;
                        return_ None "" (Some err)
                    | Ok r =>
                        emit (Done "Creating build context done");;
                        emit (Finish ContextBuild);;
                        mret (Some r)
                    end
                  else mret None);
               Run_build w opts fuel dockerfile relDockerfile buildkitEnabled
                 buildContext)
        end
  end.

(** The relative path of the dockerfile that [Run] computes for the
    classic backend: empty when the dockerfile is outside the working
    directory. *)
Definition relDockerfile (w : World) (opts : ImageOptions) (dockerfile : string)
    : result string :=
  if isPathInRoot w dockerfile (WorkingDir opts) then
    match filepath_Rel w (WorkingDir opts) dockerfile with
    | Err err => Err err
    | Ok p => Ok (filepath_ToSlash w p)
    end
  else Ok "".

Definition Run (w : World) (opts : ImageOptions) (fuel : nat) : prog outcome :=
  emit (Start Build);;
  if negb (mode_IsAvailable w) then
    emit (Finish Build);;
    return_ None "" None
  else
    dockerfile ←
      (if negb (String.eqb (DockerfilePath opts) "") then
         if negb (FileExists w (DockerfilePath opts)) then
           emit (Finish Build);;
           return_ None ""
             (Some (Opaque ("dockerfile '" +:+ DockerfilePath opts +:+ "' not found")))
         else mret (DockerfilePath opts)
       else mret (ResolveDockerfile w (WorkingDir opts)));
    if String.eqb dockerfile "" then
      emit (Finish Build);;
      return_ None "" None
    else
      match relDockerfile w opts dockerfile with
      | Err err => return_ None "" (Some err)
      | Ok relDockerfile => Run_init w opts fuel dockerfile relDockerfile
      end.


(** * The Postgres commands: [internal/command/postgres/postgres.go] *)

Module postgres.

(** [api.Passing] *)
Definition Passing : string := "passing".

(** [api.MachineCheckStatus], the fields that are read. *)
Record MachineCheckStatus := {
  Name : string;
  Status : string;
  Output : string;
}.

(** [api.Machine], the fields and methods that are read;
    [ImageVersion] and [ImageRepository] are the results of the methods of
    these names, [Labels] is [ImageRef.Labels]. *)
Record Machine := {
  ID : string;
  PrivateIP : string;
  ImageVersion : string;
  ImageRepository : string;
  Labels : gmap string string;
  Checks : list MachineCheckStatus;
}.

(** [github.com/hashicorp/go-version]: the type of versions, its parser,
    its order and its printer; [Version_zero] is [&version.Version{}]. *)
Record go_version := {
  Version : Type;
  NewVersion : string → result Version;
  LessThan : Version → Version → bool;
  Version_String : Version → string;
  Version_zero : Version;
}.

(** [m[key]] on a Go map of strings: the empty string when the key is
    missing. *)
Definition index (m : gmap string string) (key : string) : string :=
  default "" (m !! key).

Definition IsFlex (machine : option Machine) : bool :=
  match machine with
  | None => false
  | Some machine =>
      if (size (Labels machine) =? 0)%nat then false
      else if String.eqb (index (Labels machine) "fly.pg-manager") "repmgr" then true
      else false
  end.

(** The loop of [machineRole] over the checks that are left. *)
Fixpoint machineRole_loop (checks : list MachineCheckStatus) (role : string) : string :=
  match checks with
  | [] => role
  | check :: rest =>
      if String.eqb (Name check) "role" then
        if String.eqb (Status check) Passing then Output check else "error"
      else machineRole_loop rest role
  end.

Definition machineRole (machine : Machine) : string :=
  machineRole_loop (Checks machine) "unknown".

Definition machinesNodeRoles (machines : list Machine)
    : option Machine * list Machine :=
  fold_left
    (λ '(leader, replicas) machine,
       let role := machineRole machine in
       if String.eqb role "leader" || String.eqb role "primary" then
         (Some machine, replicas)
       else if String.eqb role "replica" || String.eqb role "standby" then
         (leader, replicas ++ [machine])
       else (leader, replicas ++ [machine]))
    machines (None, []).

Definition isLeader (machine : Machine) : bool :=
  String.eqb (machineRole machine) "leader" ||
  String.eqb (machineRole machine) "primary".

Fixpoint pickLeader (machines : list Machine) : result Machine :=
  match machines with
  | [] => Err (Opaque "no active leader found")
  | machine :: rest => if isLeader machine then Ok machine else pickLeader rest
  end.

(** [s[1:]] of a string that is not empty. *)
Definition drop_first (s : string) : string :=
  match s with
  | EmptyString => EmptyString
  | String _ s' => s'
  end.

Definition newline : string := String (Ascii.ascii_of_nat 10) EmptyString.

Definition incompatible (ver : go_version) (machine : Machine)
    (imageVersion requiredVersion : Version ver) : error :=
  Opaque (ID machine +:+ " is running an incompatible image version. (Current: " +:+
          Version_String ver imageVersion +:+ ", Required: >= " +:+
          Version_String ver requiredVersion +:+ ")" +:+ newline +:+
          "Please run 'flyctl pg update' to update to the latest available version").

(** The body of the loop of [hasRequiredVersionOnMachines] for one
    machine: the error it returns with, or [None] to go on. *)
Definition checkMachine (ver : go_version) (machine : Machine)
    (cluster flex standalone : string) : option error :=
  if String.eqb (ImageVersion machine) "" || String.eqb (ImageVersion machine) "unknown"
  then Some (Opaque "command is not compatible with this image")
  else
    let imageVersionStr := drop_first (ImageVersion machine) in
    match NewVersion ver imageVersionStr with
    | Err err => Some err
    | Ok imageVersion =>
        let requiredVersion : result (option (Version ver)) :=
          Ok (Some (Version_zero ver)) in
        let requiredVersion :=
          match requiredVersion with
          | Err err => Err err
          | Ok r =>
              if String.eqb (ImageRepository machine) "flyio/postgres-standalone"
              then match NewVersion ver standalone with
                   | Err err => Err err
                   | Ok v => Ok (Some v)
                   end
              else Ok r
          end in
        let requiredVersion :=
          match requiredVersion with
          | Err err => Err err
          | Ok r =>
              if String.eqb (ImageRepository machine) "flyio/postgres"
              then match NewVersion ver cluster with
                   | Err err => Err err
                   | Ok v => Ok (Some v)
                   end
              else Ok r
          end in
        let requiredVersion :=
          match requiredVersion with
          | Err err => Err err
          | Ok r =>
              if String.eqb (ImageRepository machine) "flyio/postgres-timescaledb"
              then match NewVersion ver cluster with
                   | Err err => Err err
                   | Ok v => Ok (Some v)
                   end
              else Ok r
          end in
        let requiredVersion :=
          match requiredVersion with
          | Err err => Err err
          | Ok r =>
              if IsFlex (Some machine)
              then match NewVersion ver flex with
                   | Err err => Err err
                   | Ok v => Ok (Some v)
                   end
              else Ok r
          end in
        match requiredVersion with
        | Err err => Some err
        | Ok None => Some (Opaque "unable to resolve image version")
        | Ok (Some requiredVersion) =>
            if LessThan ver imageVersion requiredVersion
            then Some (incompatible ver machine imageVersion requiredVersion)
            else None
        end
    end.

Fixpoint checkMachines (ver : go_version) (machines : list Machine)
    (cluster flex standalone : string) : option error :=
  match machines with
  | [] => None
  | machine :: rest =>
      match checkMachine ver machine cluster flex standalone with
      | Some err => Some err
      | None => checkMachines ver rest cluster flex standalone
      end
  end.

(** [dev] tells whether [FLY_DEV] is set in the environment. *)
Definition hasRequiredVersionOnMachines (ver : go_version) (dev : bool)
    (machines : list Machine) (cluster flex standalone : string) : option error :=
  if dev then None else checkMachines ver machines cluster flex standalone.

(** What [UnregisterMember] asks of its environment: the active machines,
    the flypg command of the app, and the answer of the cluster to the
    request to unregister [member] at [leader]. *)
Record Cluster := {
  ListActive : result (list Machine);
  NewCommand : option error;
  cmd_UnregisterMember : string → string → option error;
}.

(** The requests sent to the cluster: leader address, member address. *)
Definition UnregisterMember (c : Cluster) (machine : Machine)
    : option error * list (string * string) :=
  match ListActive c with
  | Err err => (Some err, [])
  | Ok machines =>
      match pickLeader machines with
      | Err err => (Some err, [])
      | Ok leader =>
          match NewCommand c with
          | Some err => (Some err, [])
          | None =>
              (cmd_UnregisterMember c (PrivateIP leader) (PrivateIP machine),
               [(PrivateIP leader, PrivateIP machine)])
          end
      end
  end.

End postgres.

(** * Destroying an Enveloop project: [runDestroy] *)

Module enveloop.

(** What [runDestroy] asks of its environment: the extension of the app,
    the [--yes] flag, the answer to the confirmation prompt, whether an
    error of the prompt means that there is no terminal, and the answer of
    the platform to the deletion of the add-on. *)
Record Session := {
  Discover : result string;
  GetYes : bool;
  Confirmf : string → bool * option error;
  IsNonInteractive : error → bool;
  DeleteAddOn : string → option error;
}.

Inductive Action :=
| Warned (msg : string)            (* fmt.Fprintln(io.ErrOut, colorize.Red(msg)) *)
| Asked (question : string)        (* prompt.Confirmf *)
| DeleteCall (name : string)       (* gql.DeleteAddOn *)
| Reported (msg : string).         (* fmt.Fprintf(out, ...) *)

Definition runDestroy (s : Session) : option error * list Action :=
  match Discover s with
  | Err err => (Some err, [])
  | Ok name =>
      let question := "Do you want to destroy the index named " +:+ name +:+ "?" in
      let asked : option (option error) * list Action :=
        if negb (GetYes s) then
          let acts :=
            [Warned "Destroying an Upstash Enveloop project is not reversible.";
             Asked question] in
          match Confirmf s question with
          | (confirmed, None) =>
              if negb confirmed then (Some None, acts) else (None, acts)
          | (_, Some err) =>
              if IsNonInteractive s err then
                (Some (Some (Opaque
                   "yes flag must be specified when not running interactively")), acts)
              else (Some (Some err), acts)
          end
        else (None, []) in
      match asked with
      | (Some returned, acts) => (returned, acts)
      | (None, acts) =>
          match DeleteAddOn s name with
          | Some err => (Some err, acts ++ [DeleteCall name])
          | None =>
              (None,
               acts ++ [DeleteCall name;
                        Reported ("Your Upstash Enveloop project " +:+ name +:+
                                  " was destroyed" +:+ postgres.newline)])
          end
      end
  end.

End enveloop.

(** * Vocabulary of the statements *)

Global Instance Phase_eq_dec : EqDecision Phase.
Proof. solve_decision. Defined.

Fixpoint starts (p : Phase) (l : log) : nat :=
  match l with
  | [] => 0%nat
  | Start q :: l' => ((if decide (p = q) then 1 else 0) + starts p l')%nat
  | _ :: l' => starts p l'
  end.

Fixpoint finishes (p : Phase) (l : log) : nat :=
  match l with
  | [] => 0%nat
  | Finish q :: l' => ((if decide (p = q) then 1 else 0) + finishes p l')%nat
  | _ :: l' => finishes p l'
  end.

(** A log without timer calls. *)
Definition untimed (l : log) : Prop :=
  Forall (λ e, match e with Start _ | Finish _ => False | _ => True end) l.

(** The result of the call number [i] of the push function. *)
Definition attempt (w : World) (tag : string) (i : nat) : option error :=
  match docker_ImagePush w i tag with
  | Err e => Some (Wrapped "error pushing image to registry" e)
  | Ok pushResp =>
      match (DisplayJSONMessagesStream pushResp None tt).1.2 with
      | Some e => Some (Wrapped "error rendering push status stream" e)
      | None => None
      end
  end.

(** The log of [n] failed calls, the first of them call number [k], each
    followed by the hook and the delay. *)
Fixpoint failed_rounds (tag auth : string) (d : Z) (errs : nat → error)
    (k n : nat) : log :=
  match n with
  | O => []
  | S n' =>
      [ImagePushCall tag auth; OnRetry (S k) (errs k); Sleep d] ++
      failed_rounds tag auth d errs (S k) n'
  end.

(** The log of a loop that the context ends during the delay after the
    [n]-th failed call, or before the first call when [n] is 0. *)
Definition cancelled_rounds (tag auth : string) (d : Z) (errs : nat → error)
    (n : nat) : log :=
  match n with
  | O => []
  | S n' =>
      failed_rounds tag auth d errs 0 n' ++
      [ImagePushCall tag auth; OnRetry n (errs n')]
  end.

(** The number of calls of the push function in a log. *)
Fixpoint pushes (l : log) : nat :=
  match l with
  | [] => 0%nat
  | ImagePushCall _ _ :: l' => S (pushes l')
  | _ :: l' => pushes l'
  end.

Definition entered_with (p q : Phase) : nat := if decide (p = q) then 1%nat else 0%nat.

(** The deferred calls of [Run] once the builder is connected: they run
    when [Run] returns. *)
Definition deferred_calls {A} (w : World) (opts : ImageOptions) (c : ctl A) : log :=
  match c with
  | Stop (Returned _ _ _) =>
      (if IsLocal w then [ClearDeploymentTags (Tag opts)] else []) ++ [DockerClose]
  | _ => []
  end.

(** A stream element that is read and displayed without an error. *)
Definition displays (item : StreamItem) : bool :=
  match item with
  | Decoded jm =>
      match Aux jm, Error jm with
      | Some _, _ => true
      | None, None => true
      | None, Some _ => false
      end
  | Undecodable _ => false
  end.

(** A run that returns without an image. *)
Definition without_image (c : ctl outcome) : Prop :=
  ∃ err, c = Stop (Returned None "" err).

(** ** Concrete environments

    A Unix host: the process runs in [cwd], [files] are the files that
    exist, [resolved] is what the search for a dockerfile finds, [engine]
    tells whether the daemon has buildkit, [push] is the registry's answer
    to each push and [done] the state of the caller's context.  The path
    functions are those of [path/filepath] on clean paths. *)

Definition aux_msg (raw : string) : StreamItem :=
  Decoded {| Status := ""; Aux := Some raw; Error := None |}.

Definition status_msg (s : string) : StreamItem :=
  Decoded {| Status := s; Aux := None; Error := None |}.

Definition error_msg (code : Z) (message : string) : StreamItem :=
  Decoded {| Status := ""; Aux := None; Error := Some (code, message) |}.

Fixpoint last_slash (s : string) (i : nat) (found : option nat) : option nat :=
  match s with
  | EmptyString => found
  | String c s' => last_slash s' (S i) (if Ascii.eqb c "/"%char then Some i else found)
  end.

Definition unix_Base (p : string) : string :=
  match last_slash p 0 None with
  | Some i => String.substring (S i) (String.length p - S i) p
  | None => p
  end.

Definition unix_Dir (p : string) : string :=
  match last_slash p 0 None with
  | Some O => "/"
  | Some i => String.substring 0 i p
  | None => "."
  end.

Definition unix_IsAbs (p : string) : bool := String.prefix "/" p.

Definition unix_Abs (cwd p : string) : string :=
  if unix_IsAbs p then p
  else if String.eqb p "." then cwd
  else cwd +:+ "/" +:+ p.

Definition unix_Rel (base targ : string) : result string :=
  if String.eqb base targ then Ok "."
  else if andb (unix_IsAbs base) (String.prefix (base +:+ "/") targ)
  then Ok (String.substring (S (String.length base))
             (String.length targ - S (String.length base)) targ)
  else if andb (String.eqb base ".") (negb (unix_IsAbs targ)) then Ok targ
  else Err (Opaque ("Rel: can't make " +:+ targ +:+ " relative to " +:+ base)).

Definition unix_isPathInRoot (cwd target rootDir : string) : bool :=
  let rootDir := unix_Abs cwd rootDir in
  let target := if unix_IsAbs target then target else rootDir +:+ "/" +:+ target in
  match unix_Rel rootDir target with
  | Ok rel => negb (String.prefix "../" rel)
  | Err _ => false
  end.

Definition file_lookup (files : list (string * list Byte.byte)) (p : string)
    : option (list Byte.byte) :=
  snd <$> List.find (λ f, String.eqb (fst f) p) files.

Definition unmarshal_ID (raw : string) : string * option error :=
  if String.prefix "ID:" raw
  then (String.substring 3 (String.length raw - 3) raw, None)
  else ("", Some (Opaque "invalid character")).

Definition host (available : bool) (cwd : string)
    (files : list (string * list Byte.byte)) (resolved : string)
    (engine : bool) (build : list StreamItem)
    (push : nat → result (list StreamItem)) (done : nat → option ctx_err) : World :=
  {| mode_IsAvailable := available;
     IsLocal := true;
     IsRemote := false;
     buildFn := None;
     FileExists := λ p, bool_decide (is_Some (file_lookup files p));
     ResolveDockerfile := λ _, resolved;
     isPathInRoot := unix_isPathInRoot cwd;
     filepath_Rel := unix_Rel;
     filepath_ToSlash := λ p, p;
     filepath_Base := unix_Base;
     filepath_Dir := unix_Dir;
     os_ReadFile := λ p, match file_lookup files p with
                         | Some data => Ok data
                         | None => Err (Opaque "no such file or directory")
                         end;
     readDockerignore := λ _ _ _, Ok [];
     archiveDirectory := λ _, None;
     buildkitEnabled := Ok engine;
     docker_Info := Ok {| ServerVersion := "24.0.7"; OSType := "linux";
                          Architecture := "x86_64"; OSVersion := "" |};
     docker_ImageBuild := λ _ _, Ok build;
     docker_ImagePush := λ i _, push i;
     docker_ImageInspectWithRaw := λ id, Ok {| ii_ID := id; ii_Size := 1024 |};
     json_Unmarshal_BuildResult := unmarshal_ID;
     client_New := None;
     bc_Solve := λ _, Ok {[ ExporterImageDigestKey := "sha256:abc" ]};
     DisplaySolveStatus := None;
     display_fails_first := false;
     ctx_Done := done;
     Tokens_Docker := "fly-token" |}.

Definition spec_img1 (workingDir buildFilePath : string) (publish : bool)
    : ImageOptions :=
  {| WorkingDir := workingDir; DockerfilePath := buildFilePath;
     IgnorefilePath := ""; Tag := "img:1"; Target := ""; NoCache := false;
     Publish := publish; BuildArgs := ∅; Label := ∅; BuildSecrets := ∅ |}.

Definition FROM_scratch : list Byte.byte := String.list_byte_of_string "FROM scratch".

Definition build_abc : list StreamItem :=
  [status_msg "Step 1/1 : FROM scratch"; aux_msg "ID:sha256:abc"].

(** The daemon is there, [/app/Dockerfile] exists, the classic backend
    delivers image [sha256:abc], every push succeeds. *)
Definition app_host : World :=
  host true "/app" [("/app/Dockerfile", FROM_scratch)] "/app/Dockerfile"
    false build_abc (λ _, Ok []) (λ _, None).

(** There is no daemon. *)
Definition no_daemon : World :=
  host false "/app" [("/app/Dockerfile", FROM_scratch)] "/app/Dockerfile"
    false build_abc (λ _, Ok []) (λ _, None).

(** There is no dockerfile under [/app]. *)
Definition no_dockerfile : World :=
  host true "/app" [] "" false build_abc (λ _, Ok []) (λ _, None).

(** The process runs in [/srv/app]; the working directory is given as [.]
    and the dockerfile by its absolute path. *)
Definition relative_root : World :=
  host true "/srv/app" [("/srv/app/Dockerfile", FROM_scratch)] ""
    false build_abc (λ _, Ok []) (λ _, None).

(** The dockerfile lies outside the working directory [/app]. *)
Definition outside_host : World :=
  host true "/app" [("/ci/Dockerfile", FROM_scratch)] ""
    false build_abc (λ _, Ok []) (λ _, None).

Definition connection_reset : error := Opaque "connection reset by peer".

(** The first push fails and the caller cancels during the first delay. *)
Definition cancelled_push : World :=
  host true "/app" [("/app/Dockerfile", FROM_scratch)] "/app/Dockerfile"
    false build_abc (λ _, Err connection_reset)
    (λ n, if decide (n = 1%nat) then Some Canceled else None).

Definition access_denied_body : list StreamItem :=
  [status_msg "The push refers to repository [registry.fly.io/app]";
   error_msg 0 "denied: requested access to the resource is denied"].

(** The registry denies every push; the caller never cancels. *)
Definition denied_push : World :=
  host true "/app" [("/app/Dockerfile", FROM_scratch)] "/app/Dockerfile"
    false build_abc (λ _, Ok access_denied_body) (λ _, None).

(** The registry denies every push; the caller cancels during the third
    delay. *)
Definition denied_push_cancelled : World :=
  host true "/app" [("/app/Dockerfile", FROM_scratch)] "/app/Dockerfile"
    false build_abc (λ _, Ok access_denied_body)
    (λ n, if decide (n = 3%nat) then Some Canceled else None).

(** The first two pushes fail, the third succeeds. *)
Definition flaky_push : World :=
  host true "/app" [("/app/Dockerfile", FROM_scratch)] "/app/Dockerfile"
    false build_abc
    (λ i, if decide (i < 2)%nat then Err connection_reset else Ok [])
    (λ _, None).

(** ** A version library for the examples

    Versions are dotted decimal numbers, compared number by number. *)

Definition digit_of (c : Ascii.ascii) : option nat :=
  let n := Ascii.nat_of_ascii c in
  if (48 <=? n)%nat && (n <=? 57)%nat then Some (n - 48)%nat else None.

(** The numbers of a dotted version; [cur] is the number being read. *)
Fixpoint dotted (s : string) (cur : option nat) : option (list nat) :=
  match s with
  | EmptyString => (λ n, [n]) <$> cur
  | String c s' =>
      if Ascii.eqb c "."%char then
        match cur with
        | Some n => cons n <$> dotted s' None
        | None => None
        end
      else
        match digit_of c with
        | Some d => dotted s' (Some (10 * default 0 cur + d))%nat
        | None => None
        end
  end.

Fixpoint numbers_lt (v1 v2 : list nat) : bool :=
  match v1, v2 with
  | [], [] => false
  | [], _ :: _ => true
  | _ :: _, [] => false
  | a :: v1', b :: v2' =>
      if (a <? b)%nat then true
      else if (b <? a)%nat then false
      else numbers_lt v1' v2'
  end.

Fixpoint nat_digits (fuel n : nat) (acc : string) : string :=
  match fuel with
  | O => acc
  | S fuel' =>
      let acc' := String (Ascii.ascii_of_nat (48 + n mod 10)) acc in
      if (n <? 10)%nat then acc' else nat_digits fuel' (n / 10) acc'
  end.

Fixpoint numbers_string (v : list nat) : string :=
  match v with
  | [] => ""
  | [n] => nat_digits (S n) n ""
  | n :: v' => nat_digits (S n) n "" +:+ "." +:+ numbers_string v'
  end.

Definition dotted_versions : postgres.go_version :=
  {| postgres.Version := list nat;
     postgres.NewVersion := λ s,
       match dotted s None with
       | Some v => Ok v
       | None => Err (Opaque ("Malformed version: " +:+ s))
       end;
     postgres.LessThan := numbers_lt;
     postgres.Version_String := numbers_string;
     postgres.Version_zero := [] |}.

Definition role_check (status output : string) : postgres.MachineCheckStatus :=
  {| postgres.Name := "role"; postgres.Status := status; postgres.Output := output |}.

Definition pg_check : postgres.MachineCheckStatus :=
  {| postgres.Name := "pg"; postgres.Status := "passing"; postgres.Output := "ok" |}.

(** A machine of a Postgres cluster with the given id, image version,
    manager label and output of its role check. *)
Definition pg_machine (id version manager role : string) : postgres.Machine :=
  {| postgres.ID := id;
     postgres.PrivateIP := "fdaa::" +:+ id;
     postgres.ImageVersion := version;
     postgres.ImageRepository := "flyio/postgres-flex";
     postgres.Labels := {[ "fly.pg-manager" := manager; "fly.version" := version ]};
     postgres.Checks := [pg_check; role_check "passing" role] |}.

(** A machine whose role check fails; a second role check follows it. *)
Definition failing_primary : postgres.Machine :=
  {| postgres.ID := "a";
     postgres.PrivateIP := "fdaa::a";
     postgres.ImageVersion := "v0.0.41";
     postgres.ImageRepository := "flyio/postgres-flex";
     postgres.Labels := {[ "fly.pg-manager" := "repmgr" ]};
     postgres.Checks := [pg_check; role_check "critical" "primary";
                         role_check "passing" "replica"] |}.

(** The version that [hasRequiredVersionOnMachines] requires of a
    machine: [flex] for a flex machine, else [cluster] for the images
    [flyio/postgres] and [flyio/postgres-timescaledb], else [standalone]
    for [flyio/postgres-standalone], and the zero version for any other
    image. *)
Definition required_version (ver : postgres.go_version) (m : postgres.Machine)
    (cluster flex standalone : string) : result (postgres.Version ver) :=
  if postgres.IsFlex (Some m) then postgres.NewVersion ver flex
  else if String.eqb (postgres.ImageRepository m) "flyio/postgres-timescaledb"
  then postgres.NewVersion ver cluster
  else if String.eqb (postgres.ImageRepository m) "flyio/postgres"
  then postgres.NewVersion ver cluster
  else if String.eqb (postgres.ImageRepository m) "flyio/postgres-standalone"
  then postgres.NewVersion ver standalone
  else Ok (postgres.Version_zero ver).

(** A cluster of three machines with one primary. *)
Definition pg_cluster : list postgres.Machine :=
  [pg_machine "a" "v0.0.41" "repmgr" "replica";
   pg_machine "b" "v0.0.41" "repmgr" "primary";
   pg_machine "c" "v0.0.29" "repmgr" "replica"].

(** The cluster [pg_cluster], reachable, that accepts every request. *)
Definition healthy_cluster : postgres.Cluster :=
  {| postgres.ListActive := Ok pg_cluster;
     postgres.NewCommand := None;
     postgres.cmd_UnregisterMember := λ _ _, None |}.

(** A terminal session without [--yes] in which the user declines. *)
Definition declining_session : enveloop.Session :=
  {| enveloop.Discover := Ok "mail";
     enveloop.GetYes := false;
     enveloop.Confirmf := λ _, (false, None);
     enveloop.IsNonInteractive := λ _, false;
     enveloop.DeleteAddOn := λ _, None |}.

(** A session with [--yes]. *)
Definition yes_session : enveloop.Session :=
  {| enveloop.Discover := Ok "mail";
     enveloop.GetYes := true;
     enveloop.Confirmf := λ _, (false, Some (Opaque "prompt: non interactive"));
     enveloop.IsNonInteractive := λ _, true;
     enveloop.DeleteAddOn := λ _, None |}.


(** The error with which a stream ends at an element that cannot be read
    or that carries an error; [None] for the other elements. *)
Definition stream_error (item : StreamItem) : option error :=
  match item with
  | Undecodable e => Some e
  | Decoded jm =>
      match Aux jm with
      | Some _ => None
      | None => JSONMessage_Display jm
      end
  end.

(** The solve request that [runBuildKitBuild] sends: the request of
    [solveOptFromImageOptions] with the two session providers. *)
Definition session_request (w : World) (opts : ImageOptions) (dockerfilePath : string)
    (buildArgs : gmap string (option string)) : SolveOpt :=
  let o := solveOptFromImageOptions w opts dockerfilePath buildArgs in
  {| Frontend := Frontend o;
     FrontendAttrs := FrontendAttrs o;
     LocalDirs := LocalDirs o;
     Exports := Exports o;
     Session := [BuildkitAuthProvider (Tokens_Docker w);
                 SecretsFromMap (String.list_byte_of_string <$> BuildSecrets opts)] |}.


(** A build stream that ends with an error of the daemon. *)
Definition build_failed : list StreamItem :=
  [status_msg "Step 1/2 : FROM scratch"; aux_msg "ID:sha256:abc";
   error_msg 1 "The command returned a non-zero code: 1";
   status_msg "never read"].

(** The daemon has buildkit and the solve yields digest [sha256:abc]. *)
Definition buildkit_host : World :=
  host true "/app" [("/app/Dockerfile", FROM_scratch)] "/app/Dockerfile"
    true [] (λ _, Ok []) (λ _, None).

(** ** The timer calls of a run, in their order *)

Definition timer_of (e : Event) : option (bool * Phase) :=
  match e with
  | Start p => Some (true, p)
  | Finish p => Some (false, p)
  | _ => None
  end.

Definition timeline (l : log) : list (bool * Phase) := omap timer_of l.

(** No timer is started twice, and a timer is finished once, after it was
    started; [started] and [finished] are the timers started and finished
    so far. *)
Fixpoint proper_from (started finished : list Phase) (t : list (bool * Phase)) : bool :=
  match t with
  | [] => true
  | (true, p) :: t' =>
      negb (bool_decide (p ∈ started)) && proper_from (p :: started) finished t'
  | (false, p) :: t' =>
      bool_decide (p ∈ started) && negb (bool_decide (p ∈ finished)) &&
      proper_from started (p :: finished) t'
  end.

Definition push_timelines : list (list (bool * Phase)) :=
  [ []; [(true, Push)]; [(true, Push); (false, Push)] ].

Definition build_timelines : list (list (bool * Phase)) :=
  app [(true, ImageBuild); (false, ImageBuild); (false, Build)] <$> push_timelines.

Definition init_timelines : list (list (bool * Phase)) :=
  [(true, BuilderInit); (false, Build); (false, BuilderInit)] ::
  (app [(true, BuilderInit); (false, BuilderInit)] <$>
     ([(true, ContextBuild); (false, Build); (false, ContextBuild)] ::
      (app [(true, ContextBuild); (false, ContextBuild)] <$> build_timelines) ++
      build_timelines)).

(** The timer calls that a run of [Run] can make. *)
Definition Run_timelines : list (list (bool * Phase)) :=
  [(true, Build); (false, Build)] :: [(true, Build)] ::
  (app [(true, Build)] <$> init_timelines).

(** ** What a run may do under its configuration

    Push events need the publish flag, and a push is of the requested
    tag; the build context, the classic build request and its payload
    reports need a daemon without buildkit, the solve request one with
    buildkit; the failure metric needs a remote builder; tags are cleared
    by a local builder only, and only the requested tag. *)
Definition allowed (w : World) (opts : ImageOptions) (e : Event) : Prop :=
  match e with
  | Start Push | Finish Push | OnRetry _ _ | Sleep _ => Publish opts = true
  | ImagePushCall tag _ => Publish opts = true ∧ tag = Tag opts
  | Start ContextBuild | Finish ContextBuild
  | ImageBuildCall _ _ | AuxParseFailure _ => buildkitEnabled w = Ok false
  | SolveCall _ => buildkitEnabled w = Ok true
  | SendNoData _ => IsRemote w = true
  | ClearDeploymentTags tag => IsLocal w = true ∧ tag = Tag opts
  | DockerClose => buildFn w = None
  | Start _ | Finish _ | Done _ => True
  end.

(** The same environment with a remote builder in place of the local one. *)
Definition as_remote (w : World) : World :=
  {| mode_IsAvailable := mode_IsAvailable w;
     IsLocal := false;
     IsRemote := true;
     buildFn := buildFn w;
     FileExists := FileExists w;
     ResolveDockerfile := ResolveDockerfile w;
     isPathInRoot := isPathInRoot w;
     filepath_Rel := filepath_Rel w;
     filepath_ToSlash := filepath_ToSlash w;
     filepath_Base := filepath_Base w;
     filepath_Dir := filepath_Dir w;
     os_ReadFile := os_ReadFile w;
     readDockerignore := readDockerignore w;
     archiveDirectory := archiveDirectory w;
     buildkitEnabled := buildkitEnabled w;
     docker_Info := docker_Info w;
     docker_ImageBuild := docker_ImageBuild w;
     docker_ImagePush := docker_ImagePush w;
     docker_ImageInspectWithRaw := docker_ImageInspectWithRaw w;
     json_Unmarshal_BuildResult := json_Unmarshal_BuildResult w;
     client_New := client_New w;
     bc_Solve := bc_Solve w;
     DisplaySolveStatus := DisplaySolveStatus w;
     display_fails_first := display_fails_first w;
     ctx_Done := ctx_Done w;
     Tokens_Docker := Tokens_Docker w |}.

(** * Properties *)

Lemma starts_app p l1 l2 : starts p (l1 ++ l2) = (starts p l1 + starts p l2)%nat.
Proof. induction l1 as [|[] l1 IH]; simpl; rewrite ?IH; lia. Qed.

Lemma finishes_app p l1 l2 : finishes p (l1 ++ l2) = (finishes p l1 + finishes p l2)%nat.
Proof. induction l1 as [|[] l1 IH]; simpl; rewrite ?IH; lia. Qed.

Lemma untimed_starts p l : untimed l → starts p l = 0%nat.
Proof. induction 1 as [|[] l H _ IH]; simpl; try done. Qed.

Lemma untimed_finishes p l : untimed l → finishes p l = 0%nat.
Proof. induction 1 as [|[] l H _ IH]; simpl; try done. Qed.

Lemma untimed_app l1 l2 : untimed l1 → untimed l2 → untimed (l1 ++ l2).
Proof. apply Forall_app_2. Qed.

Lemma DisplayJSONMessagesStream_no_callback body :
  (DisplayJSONMessagesStream body None tt).2 = [].
Proof.
  induction body as [|[jm|e] body IH]; simpl; try done.
  destruct (Aux jm).
  - destruct (DisplayJSONMessagesStream body None tt) as [r l]. by simpl in *.
  - by destruct (JSONMessage_Display jm).
Qed.

Lemma DisplayJSONMessagesStream_untimed w body s :
  untimed (DisplayJSONMessagesStream body (Some (idCallback w)) s).2.
Proof.
  revert s. induction body as [|[jm|e] body IH]; intros s; simpl; try by constructor.
  destruct (Aux jm) as [raw|] eqn:Haux.
  - unfold idCallback at 1. rewrite Haux.
    destruct (json_Unmarshal_BuildResult w raw) as [id err].
    specialize (IH id).
    destruct (DisplayJSONMessagesStream body _ id) as [r l]. simpl in *.
    apply untimed_app; [|done]. destruct err; by repeat constructor.
  - destruct (JSONMessage_Display jm); [by constructor | apply IH].
Qed.

Lemma pushFn_attempt w tag i :
  pushFn w tag i = (Next (attempt w tag i), [ImagePushCall tag (Tokens_Docker w)]).
Proof.
  unfold pushFn, attempt. destruct (docker_ImagePush w i tag) as [body|e]; [|done].
  pose proof (DisplayJSONMessagesStream_no_callback body) as Hl.
  destruct (DisplayJSONMessagesStream body None tt) as [[[] [e|]] l];
    simpl in *; by subst.
Qed.

Lemma retry_loop_S w tag d fuel k :
  retry_loop w (pushFn w tag) d (S fuel) k =
  match attempt w tag k with
  | None => (Next None, [ImagePushCall tag (Tokens_Docker w)])
  | Some e =>
      match ctx_Done w (S k) with
      | Some c =>
          (Next (Some (ContextErr c)),
           [ImagePushCall tag (Tokens_Docker w); OnRetry (S k) e])
      | None =>
          ((retry_loop w (pushFn w tag) d fuel (S k)).1,
           [ImagePushCall tag (Tokens_Docker w); OnRetry (S k) e; Sleep d] ++
           (retry_loop w (pushFn w tag) d fuel (S k)).2)
      end
  end.
Proof.
  simpl. rewrite pushFn_attempt.
  destruct (attempt w tag k) as [e|]; [|done].
  destruct (ctx_Done w (S k)); [done|].
  by destruct (retry_loop w (pushFn w tag) d fuel (S k)).
Qed.

(** The loop ends in success or with the error of the context, and never
    with an error of the push function. *)
Lemma retry_loop_result w tag d fuel k :
  let r := retry_loop w (pushFn w tag) d fuel k in
  (r.1 = Next None ∨ (∃ c, r.1 = Next (Some (ContextErr c))) ∨ r.1 = Spin)
  ∧ untimed r.2
  ∧ Forall (λ e, ∀ d', e = Sleep d' → d' = d) r.2.
Proof.
  revert k. induction fuel as [|fuel IH]; intros k.
  { simpl. split_and!; [by right; right | constructor | constructor]. }
  cbv zeta. rewrite retry_loop_S.
  destruct (attempt w tag k) as [e|].
  - destruct (ctx_Done w (S k)) as [c|].
    + simpl. split_and!; [right; left; eauto | by repeat constructor |].
      repeat constructor; intros; discriminate.
    + destruct (IH (S k)) as (Hr & Hu & Hs). simpl. split_and!; [done | |].
      * by repeat constructor.
      * repeat constructor; try (intros; discriminate); [congruence | done].
  - simpl. split_and!; [by left | by repeat constructor |].
    repeat constructor; intros; discriminate.
Qed.

Lemma retry_Do_result w tag d fuel :
  let r := retry_Do w (pushFn w tag) d fuel in
  (r.1 = Next None ∨ (∃ c, r.1 = Next (Some (ContextErr c))) ∨ r.1 = Spin)
  ∧ untimed r.2
  ∧ Forall (λ e, ∀ d', e = Sleep d' → d' = d) r.2.
Proof.
  unfold retry_Do. destruct (ctx_Done w 0) as [c|].
  - simpl. split_and!; [right; left; eauto | constructor | constructor].
  - apply retry_loop_result.
Qed.

(** [pushToFly] never returns an error: a run of it that ends ends with
    [nil]. *)
Lemma pushToFly_result w tag fuel :
  let r := pushToFly w tag fuel in
  (r.1 = Next None ∨ r.1 = Spin) ∧ untimed r.2.
Proof.
  unfold pushToFly.
  destruct (retry_Do_result w tag (3 * Second) fuel) as (Hr & Hu & _).
  destruct (retry_Do w (pushFn w tag) (3 * Second) fuel) as [c l]. simpl in *.
  destruct Hr as [-> | [[x ->] | ->]]; simpl; rewrite ?app_nil_r; auto.
Qed.

Lemma pushes_app l1 l2 : pushes (l1 ++ l2) = (pushes l1 + pushes l2)%nat.
Proof. induction l1 as [|[] l1 IH]; simpl; rewrite ?IH; lia. Qed.

Lemma pushes_failed_rounds tag auth d errs k n :
  pushes (failed_rounds tag auth d errs k n) = n.
Proof. revert k. induction n as [|n IH]; intros k; simpl; [done | by rewrite IH]. Qed.

Lemma retry_loop_succeeds w tag d errs n : ∀ k fuel,
  (∀ i, (i < n)%nat → attempt w tag (k + i) = Some (errs (k + i)%nat)) →
  (∀ i, (i < n)%nat → ctx_Done w (S (k + i)) = None) →
  attempt w tag (k + n) = None →
  (n < fuel)%nat →
  retry_loop w (pushFn w tag) d fuel k =
    (Next None, failed_rounds tag (Tokens_Docker w) d errs k n ++
                [ImagePushCall tag (Tokens_Docker w)]).
Proof.
  induction n as [|n IH]; intros k fuel Hfail Hctx Hok Hfuel;
    (destruct fuel as [|fuel]; [lia|]); rewrite retry_loop_S.
  - rewrite Nat.add_0_r in Hok. by rewrite Hok.
  - pose proof (Hfail 0%nat ltac:(lia)) as H0. rewrite Nat.add_0_r in H0.
    pose proof (Hctx 0%nat ltac:(lia)) as C0. rewrite Nat.add_0_r in C0.
    rewrite H0, C0.
    rewrite (IH (S k) fuel); [done | | | | lia].
    + intros i Hi. replace (S k + i)%nat with (k + S i)%nat by lia. apply Hfail. lia.
    + intros i Hi. replace (S k + i)%nat with (k + S i)%nat by lia. apply Hctx. lia.
    + by replace (S k + n)%nat with (k + S n)%nat by lia.
Qed.

Lemma retry_loop_aborts w tag d errs n : ∀ k fuel c,
  (∀ i, (i ≤ n)%nat → attempt w tag (k + i) = Some (errs (k + i)%nat)) →
  (∀ i, (i < n)%nat → ctx_Done w (S (k + i)) = None) →
  ctx_Done w (S (k + n)) = Some c →
  (n < fuel)%nat →
  retry_loop w (pushFn w tag) d fuel k =
    (Next (Some (ContextErr c)),
     failed_rounds tag (Tokens_Docker w) d errs k n ++
     [ImagePushCall tag (Tokens_Docker w); OnRetry (S (k + n)) (errs (k + n)%nat)]).
Proof.
  induction n as [|n IH]; intros k fuel c Hfail Hctx Hc Hfuel;
    (destruct fuel as [|fuel]; [lia|]); rewrite retry_loop_S;
    pose proof (Hfail 0%nat ltac:(lia)) as H0; rewrite Nat.add_0_r in H0; rewrite H0.
  - rewrite Nat.add_0_r in Hc. rewrite Hc. by rewrite Nat.add_0_r.
  - pose proof (Hctx 0%nat ltac:(lia)) as C0. rewrite Nat.add_0_r in C0. rewrite C0.
    rewrite (IH (S k) fuel c); [| | | | lia].
    + simpl. by replace (S (k + n))%nat with (k + S n)%nat by lia.
    + intros i Hi. replace (S k + i)%nat with (k + S i)%nat by lia. apply Hfail. lia.
    + intros i Hi. replace (S k + i)%nat with (k + S i)%nat by lia. apply Hctx. lia.
    + by replace (S k + n)%nat with (k + S n)%nat by lia.
Qed.

(** ** The two build drivers *)

Lemma runClassicBuild_untimed w r opts rel args :
  ∃ res l, runClassicBuild w r opts rel args = (Next res, l) ∧ untimed l.
Proof.
  unfold runClassicBuild.
  destruct (docker_ImageBuild w r _) as [body|e].
  - pose proof (DisplayJSONMessagesStream_untimed w body "") as Hu.
    destruct (DisplayJSONMessagesStream body _ "") as [[id [e|]] l]; simpl in *;
      eexists _, _; (split; [reflexivity|]); by constructor.
  - eexists _, _. split; [reflexivity|]. by repeat constructor.
Qed.

Lemma runBuildKitBuild_untimed w opts df args :
  ∃ res l, runBuildKitBuild w opts df args = (Next res, l) ∧ untimed l.
Proof.
  unfold runBuildKitBuild. destruct (client_New w).
  { eexists _, _. split; [reflexivity | constructor]. }
  simpl. destruct (eg_Wait w _ _); [|destruct (bc_Solve w _)];
    eexists _, _; (split; [reflexivity|]); by repeat constructor.
Qed.

(** ** Phase timers on the paths of [Run] *)

Ltac count_timers :=
  repeat (rewrite ?starts_app, ?finishes_app; simpl);
  repeat match goal with
         | H : untimed ?l |- _ =>
             rewrite ?(untimed_starts _ l H), ?(untimed_finishes _ l H); clear H
         end;
  repeat case_decide; try congruence; try lia.

(** After the image is built no timer is open, and the push timer is
    closed when the push ends. *)
Lemma Run_publish_timers w opts fuel imageID c l p :
  Run_publish w opts fuel imageID = (c, l) → c ≠ Spin →
  starts p l = finishes p l.
Proof.
  unfold Run_publish. destruct (Publish opts).
  - destruct (pushToFly_result w (Tag opts) fuel) as [Hr Hu].
    destruct (pushToFly w (Tag opts) fuel) as [c' l']. simpl in Hr, Hu.
    destruct Hr as [-> | ->]; simpl; intros [= <- <-] Hc; [|done].
    count_timers.
  - simpl. destruct (docker_ImageInspectWithRaw w imageID);
      intros [= <- <-] _; by destruct p.
Qed.

Lemma bind_inv {A B} (m : prog A) (k : A → prog B) c l :
  m ≫= k = (c, l) →
  (∃ a l1 l2, m = (Next a, l1) ∧ k a = (c, l2) ∧ l = l1 ++ l2)
  ∨ (∃ o, m = (Stop o, l) ∧ c = Stop o)
  ∨ (m = (Spin, l) ∧ c = Spin).
Proof.
  unfold mbind, prog_bind. destruct m as [[a|o|] l1].
  - destruct (k a) as [c2 l2] eqn:Hk. intros [= <- <-]. left. eauto 10.
  - intros [= <- <-]. right; left. eauto.
  - intros [= <- <-]. right; right. eauto.
Qed.

Lemma Run_build_timers w opts fuel df rel bk bctx c l p :
  Run_build w opts fuel df rel bk bctx = (c, l) → c ≠ Spin →
  (starts p l + entered_with p Build)%nat = finishes p l.
Proof.
  unfold Run_build, entered_with, when, normalizeBuildArgsForDocker. intros H Hc.
  destruct (docker_Info w) as [info|e].
  2:{ destruct (IsRemote w); simpl in H; injection H as <- <-; count_timers. }
  set (args := map_fold _ _ _) in H.
  destruct (runClassicBuild_untimed w bctx opts rel args) as (rc & lc & Hrc & Huc).
  destruct (runBuildKitBuild_untimed w opts df args) as (rb & lb & Hrb & Hub).
  rewrite Hrc, Hrb in H. clear Hrc Hrb.
  assert (∀ imageID, ∃ c' l', Run_publish w opts fuel imageID = (c', l') ∧
            (c' ≠ Spin → starts p l' = finishes p l')) as Hpub.
  { intros id. destruct (Run_publish w opts fuel id) as [c' l'] eqn:Hp.
    eexists _, _. split; [done|]. by eapply Run_publish_timers. }
  destruct bk; [destruct rb as [id|e] | destruct rc as [id|e]];
    try (destruct (Hpub id) as (c' & l' & Hp & Hbal); simpl in H; rewrite Hp in H;
         injection H as <- <-; specialize (Hbal Hc));
    try (destruct (IsRemote w); simpl in H; injection H as <- <-);
    count_timers.
Qed.

Lemma defer_inv {A} (d : log) (body : prog A) c l :
  defer_ d body = (c, l) → ∃ l0, body = (c, l0) ∧ (l = l0 ∨ l = l0 ++ d).
Proof.
  unfold defer_. destruct body as [[a|[img wn e|code]|] l0]; intros [= <- <-]; eauto.
Qed.

Lemma Run_init_timers w opts fuel df rel c l p :
  Run_init w opts fuel df rel = (c, l) → c ≠ Spin →
  (starts p l + entered_with p Build)%nat = finishes p l.
Proof.
  unfold Run_init. intros H Hc.
  destruct (buildFn w) as [e|].
  { simpl in H. injection H as <- <-. unfold entered_with. count_timers. }
  apply bind_inv in H as [(? & l1 & l2 & [= _ <-] & H1 & ->) | [(? & [=] & _) | [[=] _]]].
  apply defer_inv in H1 as (l0 & H & Hl).
  assert (untimed [DockerClose]) as Hclose by (by repeat constructor).
  destruct (buildkitEnabled w) as [bk|e].
  2:{ simpl in H. injection H as <- <-. unfold entered_with.
      destruct Hl as [-> | ->]; count_timers. }
  apply bind_inv in H as [(? & l3 & l4 & [= _ <-] & H2 & ->) | [(? & [=] & _) | [[=] _]]].
  apply defer_inv in H2 as (l5 & H & Hl5).
  assert (untimed (if IsLocal w then [ClearDeploymentTags (Tag opts)] else []))
    as Hclear by (destruct (IsLocal w); by repeat constructor).
  assert ((starts p l5 + entered_with p Build)%nat = finishes p l5) as Hbody.
  { destruct bk; simpl in H.
    - destruct (Run_build w opts fuel df rel true None) as [c' l'] eqn:Hb.
      injection H as <- <-. by eapply Run_build_timers.
    - destruct (makeBuildContext w df opts (IsRemote w)) as [r|e]; simpl in H.
      + destruct (Run_build w opts fuel df rel false (Some r)) as [c' l'] eqn:Hb.
        injection H as <- <-.
        pose proof (Run_build_timers _ _ _ _ _ _ _ _ _ p Hb Hc) as Hbal.
        revert Hbal. unfold entered_with. count_timers.
      + injection H as <- <-. unfold entered_with. count_timers. }
  revert Hbody. unfold entered_with.
  destruct Hl as [-> | ->]; destruct Hl5 as [-> | ->]; count_timers.
Qed.

(** Every path of [Run] but one closes the timers it opens: when the
    relative path of every dockerfile inside the working directory can be
    computed, a run that ends has as many Finish calls as Start calls, for
    every phase. *)
Lemma Run_timers_balanced w opts fuel o l :
  (∀ df, isPathInRoot w df (WorkingDir opts) = true →
         ∃ rel, filepath_Rel w (WorkingDir opts) df = Ok rel) →
  exec (Run w opts fuel) = (Some o, l) →
  ∀ p, starts p l = finishes p l.
Proof.
  intros Hrel H p. unfold exec in H.
  destruct (Run w opts fuel) as [c l'] eqn:HR.
  assert (c ≠ Spin ∧ l' = l) as [Hc ->] by (destruct c; by simplify_eq).
  clear H. unfold Run in HR. unfold mret, prog_ret, return_ in HR.
  apply bind_inv in HR as [(? & l1 & l2 & [= _ <-] & HR & ->) | [(? & [=] & _) | [[=] _]]].
  destruct (mode_IsAvailable w); simpl negb in HR; cbv iota in HR;
    [|simpl in HR; injection HR as <- <-; count_timers].
  apply bind_inv in HR as [(df & l3 & l4 & Hdf & HR & ->) | [(o' & Hdf & ->) | [Hdf ->]]].
  - assert (l3 = []) as ->.
    { destruct (String.eqb (DockerfilePath opts) ""); simpl in Hdf; [by simplify_eq|].
      destruct (FileExists w (DockerfilePath opts)); simpl in Hdf; by simplify_eq. }
    clear Hdf. destruct (String.eqb df "").
    { simpl in HR. injection HR as <- <-. count_timers. }
    assert (∃ rel, relDockerfile w opts df = Ok rel) as [rel Hr].
    { unfold relDockerfile.
      destruct (isPathInRoot w df (WorkingDir opts)) eqn:Hin; [|by eexists].
      destruct (Hrel df Hin) as [rel ->]. by eexists. }
    rewrite Hr in HR.
    pose proof (Run_init_timers _ _ _ _ _ _ _ p HR Hc) as Hbal. revert Hbal.
    unfold entered_with. count_timers.
  - destruct (String.eqb (DockerfilePath opts) ""); simpl in Hdf; [by simplify_eq|].
    destruct (FileExists w (DockerfilePath opts)); simpl in Hdf; [by simplify_eq|].
    injection Hdf as <- <-. count_timers.
  - destruct (String.eqb (DockerfilePath opts) ""); simpl in Hdf; [by simplify_eq|].
    destruct (FileExists w (DockerfilePath opts)); simpl in Hdf; by simplify_eq.
Qed.

(** ** The classic path up to the push *)

(** When the daemon is there, the dockerfile [df] is found, the classic
    backend is selected and the image is built with id [imageID], [Run]
    comes to [if opts.Publish]; the deferred calls follow when it
    returns. *)
Lemma Run_classic_path w opts fuel df rel r info body imageID lb :
  mode_IsAvailable w = true →
  (DockerfilePath opts = df ∧ FileExists w df = true) ∨
  (DockerfilePath opts = "" ∧ ResolveDockerfile w (WorkingDir opts) = df) →
  df ≠ "" →
  relDockerfile w opts df = Ok rel →
  buildFn w = None →
  buildkitEnabled w = Ok false →
  makeBuildContext w df opts (IsRemote w) = Ok r →
  docker_Info w = Ok info →
  (let args := map_fold (λ k v out, <[k := Some v]> out) ∅ (BuildArgs opts) in
   docker_ImageBuild w (Some r) (classicBuildOptions w opts rel args) = Ok body) →
  DisplayJSONMessagesStream body (Some (idCallback w)) "" = ((imageID, None), lb) →
  Run w opts fuel =
    ((Run_publish w opts fuel imageID).1,
     [Start Build; Start BuilderInit; Finish BuilderInit; Start ContextBuild;
      Done "Creating build context done"; Finish ContextBuild; Start ImageBuild;
      Done ("docker host: " +:+ ServerVersion info +:+ " " +:+ OSType info +:+
            " " +:+ Architecture info);
      ImageBuildCall (Some r)
        (classicBuildOptions w opts rel
           (map_fold (λ k v out, <[k := Some v]> out) ∅ (BuildArgs opts)))] ++
     lb ++
     [Finish ImageBuild; Finish Build; Done "Building image done"] ++
     (Run_publish w opts fuel imageID).2 ++
     deferred_calls w opts (Run_publish w opts fuel imageID).1).
Proof.
  intros Hav Hdf Hne Hrel Hfn Hbk Hctx Hinfo Hbuild Hdisp.
  unfold Run. rewrite Hav. simpl negb. cbv iota.
  assert ((if negb (String.eqb (DockerfilePath opts) "")
           then if negb (FileExists w (DockerfilePath opts))
                then emit (Finish Build);;
                     return_ None ""
                       (Some (Opaque ("dockerfile '" +:+ DockerfilePath opts +:+
                                      "' not found")))
                else mret (DockerfilePath opts)
           else mret (ResolveDockerfile w (WorkingDir opts)))
          = ((Next df, []) : prog string)) as ->.
  { destruct Hdf as [[<- Hex] | [-> <-]]; [|done].
    apply String.eqb_neq in Hne. by rewrite Hne, Hex. }
  apply String.eqb_neq in Hne. simpl. rewrite Hne.
  rewrite Hrel.
  unfold Run_init, Run_build, runClassicBuild, normalizeBuildArgsForDocker.
  rewrite Hfn, Hbk, Hctx, Hinfo. simpl in Hbuild. simpl. rewrite Hbuild, Hdisp. simpl.
  destruct (Run_publish w opts fuel imageID) as [[o|[img wn e|code]|] lp];
    simpl; rewrite ?app_nil_r; try done.
  repeat (rewrite <- app_assoc; simpl). reflexivity.
Qed.

(** ** Where an image handle can come from *)

(** A run of [Run] either returns without an image, or it is a run of
    the code from [if opts.Publish] on. *)
Lemma Run_build_inv w opts fuel df rel bk bctx c l :
  Run_build w opts fuel df rel bk bctx = (c, l) →
  without_image c ∨ ∃ imageID lp, Run_publish w opts fuel imageID = (c, lp).
Proof.
  unfold Run_build, when, normalizeBuildArgsForDocker, without_image. intros H.
  destruct (docker_Info w) as [info|e].
  2:{ destruct (IsRemote w); simpl in H; injection H as <- <-; eauto. }
  set (args := map_fold _ _ _) in H.
  destruct (runClassicBuild_untimed w bctx opts rel args) as (rc & lc & Hrc & _).
  destruct (runBuildKitBuild_untimed w opts df args) as (rb & lb & Hrb & _).
  rewrite Hrc, Hrb in H. clear Hrc Hrb.
  destruct bk; [destruct rb as [id|e] | destruct rc as [id|e]];
    try (simpl in H; destruct (Run_publish w opts fuel id) as [c' l'] eqn:Hp;
         injection H as <- <-; by eauto);
    destruct (IsRemote w); simpl in H; injection H as <- <-; eauto.
Qed.

Lemma Run_init_inv w opts fuel df rel c l :
  Run_init w opts fuel df rel = (c, l) →
  without_image c ∨ ∃ imageID lp, Run_publish w opts fuel imageID = (c, lp).
Proof.
  unfold Run_init. intros H.
  destruct (buildFn w) as [e|].
  { simpl in H. injection H as <- <-. left. by eexists. }
  apply bind_inv in H as [(? & l1 & l2 & [= _ <-] & H1 & ->) | [(? & [=] & _) | [[=] _]]].
  apply defer_inv in H1 as (l0 & H & _).
  destruct (buildkitEnabled w) as [bk|e].
  2:{ simpl in H. injection H as <- <-. left. by eexists. }
  apply bind_inv in H as [(? & l3 & l4 & [= _ <-] & H2 & ->) | [(? & [=] & _) | [[=] _]]].
  apply defer_inv in H2 as (l5 & H & _).
  destruct bk; simpl in H.
  - destruct (Run_build w opts fuel df rel true None) as [c' l'] eqn:Hb.
    injection H as <- <-. by eapply Run_build_inv.
  - destruct (makeBuildContext w df opts (IsRemote w)) as [r|e]; simpl in H.
    + destruct (Run_build w opts fuel df rel false (Some r)) as [c' l'] eqn:Hb.
      injection H as <- <-. by eapply Run_build_inv.
    + injection H as <- <-. left. by eexists.
Qed.

Lemma Run_inv w opts fuel c l :
  Run w opts fuel = (c, l) →
  without_image c ∨ ∃ imageID lp, Run_publish w opts fuel imageID = (c, lp).
Proof.
  unfold Run. unfold mret, prog_ret, return_. intros HR.
  apply bind_inv in HR as [(? & l1 & l2 & [= _ <-] & HR & ->) | [(? & [=] & _) | [[=] _]]].
  destruct (mode_IsAvailable w); simpl negb in HR; cbv iota in HR;
    [|simpl in HR; injection HR as <- <-; left; by eexists].
  apply bind_inv in HR as [(df & l3 & l4 & Hdf & HR & ->) | [(o' & Hdf & ->) | [Hdf ->]]].
  - destruct (String.eqb df "").
    { simpl in HR. injection HR as <- <-. left. by eexists. }
    destruct (relDockerfile w opts df) as [rel|e].
    + by eapply Run_init_inv.
    + injection HR as <- <-. left. by eexists.
  - destruct (String.eqb (DockerfilePath opts) ""); simpl in Hdf; [by simplify_eq|].
    destruct (FileExists w (DockerfilePath opts)); simpl in Hdf; [by simplify_eq|].
    injection Hdf as <- <-. left. by eexists.
  - destruct (String.eqb (DockerfilePath opts) ""); simpl in Hdf; [by simplify_eq|].
    destruct (FileExists w (DockerfilePath opts)); simpl in Hdf; by simplify_eq.
Qed.

(** ** The id callback *)

Lemma DisplayJSONMessagesStream_captures w pre raw id : ∀ s,
  Forall (λ item, displays item = true) pre →
  json_Unmarshal_BuildResult w raw = (id, None) →
  ∃ l, DisplayJSONMessagesStream (pre ++ [aux_msg raw]) (Some (idCallback w)) s =
         ((id, None), l).
Proof.
  intros s Hpre Hraw. revert s.
  induction Hpre as [|[jm|e] pre Hd _ IH]; intros s; simpl in *.
  - unfold idCallback. simpl. rewrite Hraw. by eexists.
  - destruct (Aux jm) as [a|] eqn:Ha.
    + destruct (idCallback w jm s) as [s' l1].
      destruct (IH s') as [l2 ->]. by eexists.
    + unfold JSONMessage_Display. destruct (Error jm); [done | apply IH].
  - done.
Qed.

Lemma DisplayJSONMessagesStream_no_callback_state {S} body (s : S) :
  (DisplayJSONMessagesStream body None s).1.1 = s.
Proof.
  induction body as [|[jm|e] body IH]; simpl; try done.
  destruct (Aux jm).
  - by destruct (DisplayJSONMessagesStream body None s) as [[s' r] l].
  - by destruct (JSONMessage_Display jm).
Qed.

(** ** A registry that denies every push *)

Lemma denied_push_never_ends fuel : ∀ k,
  (retry_loop denied_push (pushFn denied_push "img:1") (3 * Second) fuel k).1 = Spin.
Proof.
  induction fuel as [|fuel IH]; intros k; [done|].
  rewrite retry_loop_S.
  change (attempt denied_push "img:1" k) with
    (Some (Wrapped "error rendering push status stream" (JSONError 0 access_denied))).
  change (ctx_Done denied_push (S k)) with (@None ctx_err).
  simpl. apply IH.
Qed.

(** * The claims *)

(** C1. For every build request, if the docker daemon is unavailable, or
    no dockerfile path override is given and no dockerfile is found under
    the working directory, [Run] returns a nil image, an empty warning and
    a nil error: a skip, not an error.  The build timer, the only one
    opened, is closed. *)
Theorem Run_skips_without_daemon_or_dockerfile w opts fuel :
  mode_IsAvailable w = false ∨
  (DockerfilePath opts = "" ∧ ResolveDockerfile w (WorkingDir opts) = "") →
  exec (Run w opts fuel) = (Some (Returned None "" None), [Start Build; Finish Build]).
Proof.
  intros [Hd | [Hp Hr]]; unfold Run.
  - by rewrite Hd.
  - rewrite Hp, Hr. by destruct (mode_IsAvailable w).
Qed.

Lemma Run_skips_witness :
  (mode_IsAvailable no_daemon = false ∧
   exec (Run no_daemon (spec_img1 "/app" "/app/Dockerfile" false) 1) =
     (Some (Returned None "" None), [Start Build; Finish Build])) ∧
  (DockerfilePath (spec_img1 "/app" "" false) = "" ∧
   ResolveDockerfile no_dockerfile (WorkingDir (spec_img1 "/app" "" false)) = "" ∧
   exec (Run no_dockerfile (spec_img1 "/app" "" false) 1) =
     (Some (Returned None "" None), [Start Build; Finish Build])).
Proof.
  split.
  - split; [reflexivity|].
    apply (Run_skips_without_daemon_or_dockerfile no_daemon). left. reflexivity.
  - split; [reflexivity|]. split; [reflexivity|].
    apply (Run_skips_without_daemon_or_dockerfile no_dockerfile). right.
    split; reflexivity.
Defined.

(** C2, at an input where the code departs from it.  The process runs in
    [/srv/app], the working directory is given as [.] and the dockerfile
    as [/srv/app/Dockerfile]: the dockerfile is inside the working
    directory, its path relative to [.] cannot be computed, and [Run]
    returns that error with the build timer started and never finished.
    On every other path the timers are closed, see [Run_timers_balanced]. *)
Theorem Run_rel_error_leaves_build_timer_open fuel :
  let l := (exec (Run relative_root (spec_img1 "." "/srv/app/Dockerfile" false) fuel)).2 in
  isPathInRoot relative_root "/srv/app/Dockerfile" "." = true ∧
  exec (Run relative_root (spec_img1 "." "/srv/app/Dockerfile" false) fuel) =
    (Some (Returned None ""
       (Some (Opaque "Rel: can't make /srv/app/Dockerfile relative to ."))),
     [Start Build]) ∧
  starts Build l = 1%nat ∧ finishes Build l = 0%nat.
Proof. by vm_compute. Qed.

(** C3, at an input where the code departs from it.  The first push
    fails and the caller cancels during the first delay: the retry loop
    ends with the error of the context, which is not an access-denied
    response, and [pushToFly] returns nil instead of that error. *)
Theorem pushToFly_drops_terminal_error fuel :
  retry_Do cancelled_push (pushFn cancelled_push "img:1") (3 * Second) (S fuel) =
    (Next (Some (ContextErr Canceled)),
     [ImagePushCall "img:1" "fly-token";
      OnRetry 1 (Wrapped "error pushing image to registry" connection_reset)]) ∧
  pushToFly_classify (Some (ContextErr Canceled)) "img:1" = None ∧
  pushToFly cancelled_push "img:1" (S fuel) =
    (Next None,
     [ImagePushCall "img:1" "fly-token";
      OnRetry 1 (Wrapped "error pushing image to registry" connection_reset)]).
Proof. by vm_compute. Qed.

(** C4, at an input where the code departs from it.  The registry denies
    every push of tag [img:1].  While the caller does not cancel, the retry
    loop goes on and [Run] does not return; when the caller cancels during
    the third delay, the loop ends with the error of the context,
    [pushToFly] returns nil and [Run] reports the push as done and ends the
    process.  In neither case does [Run] return an authorization error
    carrying the tag. *)
Theorem Run_denied_push_reports_no_authorization_error :
  (∀ i, attempt denied_push "img:1" i =
          Some (Wrapped "error rendering push status stream"
                  (JSONError 0 access_denied))) ∧
  pushToFly_classify
    (Some (Wrapped "error rendering push status stream" (JSONError 0 access_denied)))
    "img:1" = Some (RegistryUnauthorizedError "img:1") ∧
  (∀ fuel, (exec (Run denied_push (spec_img1 "/app" "/app/Dockerfile" true) fuel)).1
           = None) ∧
  (∀ fuel, (exec (Run denied_push_cancelled (spec_img1 "/app" "/app/Dockerfile" true)
                    (3 + fuel))).1 = Some (Exited 1)).
Proof.
  split_and!; [done | done | | by vm_compute].
  intros fuel.
  erewrite (Run_classic_path denied_push _ fuel "/app/Dockerfile" "Dockerfile");
    [| reflexivity | by left | done | reflexivity | reflexivity | reflexivity
     | reflexivity | reflexivity | reflexivity | reflexivity].
  unfold Run_publish, pushToFly, retry_Do.
  change (ctx_Done denied_push 0) with (@None ctx_err).
  change (Publish _) with true. cbv iota.
  change (Tag _) with "img:1".
  pose proof (denied_push_never_ends fuel 0) as Hspin.
  destruct (retry_loop denied_push _ _ fuel 0) as [c l]. simpl in Hspin. subst c.
  reflexivity.
Qed.

(** C5. When the publish flag is set and the push to the registry
    succeeds, [Run] never returns an image handle to its caller: the
    publish-success branch closes the push timer, reports that the push is
    done and ends the process with [os.Exit], so the code after it, which
    returns the handle, is not reached.  With the publish flag set no run
    of [Run] returns a handle. *)
Theorem Run_publish_success_exits w opts fuel :
  Publish opts = true →
  (∀ imageID l,
     pushToFly w (Tag opts) fuel = (Next None, l) →
     Run_publish w opts fuel imageID =
       (Stop (Exited 1),
        [Start Push] ++ l ++ [Finish Push; Done "Pushing image done"])) ∧
  (∀ img warning err,
     (exec (Run w opts fuel)).1 ≠ Some (Returned (Some img) warning err)).
Proof.
  intros Hpub. split.
  - intros imageID l Hpush. unfold Run_publish. rewrite Hpub, Hpush. simpl.
    by rewrite ?app_nil_r, <- ?app_assoc.
  - intros img warning err Hrun.
    destruct (Run w opts fuel) as [c l] eqn:HR.
    apply Run_inv in HR as [[e ->] | (imageID & lp & Hp)]; [simpl in Hrun; congruence|].
    unfold Run_publish in Hp. rewrite Hpub in Hp.
    destruct (pushToFly_result w (Tag opts) fuel) as [Hr _].
    destruct (pushToFly w (Tag opts) fuel) as [c' l']. simpl in Hr.
    destruct Hr as [-> | ->]; simpl in Hp; injection Hp as <- <-;
      simpl in Hrun; congruence.
Qed.

Lemma Run_publish_success_exits_witness :
  Publish (spec_img1 "/app" "/app/Dockerfile" true) = true ∧
  pushToFly app_host "img:1" 1 = (Next None, [ImagePushCall "img:1" "fly-token"]) ∧
  Run_publish app_host (spec_img1 "/app" "/app/Dockerfile" true) 1 "sha256:abc" =
    (Stop (Exited 1),
     [Start Push; ImagePushCall "img:1" "fly-token"; Finish Push;
      Done "Pushing image done"]) ∧
  (exec (Run app_host (spec_img1 "/app" "/app/Dockerfile" true) 1)).1 = Some (Exited 1) ∧
  (∀ img warning err,
     (exec (Run app_host (spec_img1 "/app" "/app/Dockerfile" true) 1)).1
       ≠ Some (Returned (Some img) warning err)).
Proof.
  split; [reflexivity|]. split; [reflexivity|]. split.
  - apply (proj1 (Run_publish_success_exits app_host
                    (spec_img1 "/app" "/app/Dockerfile" true) 1 eq_refl)
             "sha256:abc" [ImagePushCall "img:1" "fly-token"]).
    reflexivity.
  - split; [reflexivity|].
    apply (proj2 (Run_publish_success_exits app_host
                    (spec_img1 "/app" "/app/Dockerfile" true) 1 eq_refl)).
Defined.

(** C6. On the classic path with publish unset: when the build stream
    ends with a message whose auxiliary payload carries image id [id],
    which reaches [Run] through the message callback and in no other way,
    and inspecting that image reports id [id] and size [size], [Run]
    returns the handle with that id, the requested tag and that size.  For
    id [sha256:abc], tag [img:1] and size 1024 this is
    [ImageHandle{ID: sha256:abc, Tag: img:1, Size: 1024}]. *)
Theorem Run_classic_returns_handle w opts fuel df rel r info pre raw id size :
  mode_IsAvailable w = true →
  (DockerfilePath opts = df ∧ FileExists w df = true) ∨
  (DockerfilePath opts = "" ∧ ResolveDockerfile w (WorkingDir opts) = df) →
  df ≠ "" →
  relDockerfile w opts df = Ok rel →
  buildFn w = None →
  buildkitEnabled w = Ok false →
  makeBuildContext w df opts (IsRemote w) = Ok r →
  docker_Info w = Ok info →
  (let args := map_fold (λ k v out, <[k := Some v]> out) ∅ (BuildArgs opts) in
   docker_ImageBuild w (Some r) (classicBuildOptions w opts rel args) =
     Ok (pre ++ [aux_msg raw])) →
  Forall (λ item, displays item = true) pre →
  json_Unmarshal_BuildResult w raw = (id, None) →
  Publish opts = false →
  docker_ImageInspectWithRaw w id = Ok {| ii_ID := id; ii_Size := size |} →
  (exec (Run w opts fuel)).1 =
    Some (Returned (Some {| ID := id; di_Tag := Tag opts; Size := size |}) "" None) ∧
  (DisplayJSONMessagesStream (pre ++ [aux_msg raw]) (Some (idCallback w)) "").1 =
    (id, None) ∧
  (DisplayJSONMessagesStream (pre ++ [aux_msg raw]) None "").1.1 = "".
Proof.
  intros Hav Hdf Hne Hrel Hfn Hbk Hctx Hinfo Hbuild Hpre Hraw Hpub Hinsp.
  destruct (DisplayJSONMessagesStream_captures w pre raw id "" Hpre Hraw) as [lb Hdisp].
  split_and!.
  - rewrite (Run_classic_path w opts fuel df rel r info _ id lb
               Hav Hdf Hne Hrel Hfn Hbk Hctx Hinfo Hbuild Hdisp).
    unfold Run_publish. rewrite Hpub, Hinsp. reflexivity.
  - by rewrite Hdisp.
  - apply DisplayJSONMessagesStream_no_callback_state.
Qed.

Lemma Run_classic_returns_handle_witness :
  (exec (Run app_host (spec_img1 "/app" "/app/Dockerfile" false) 1)).1 =
    Some (Returned (Some {| ID := "sha256:abc"; di_Tag := "img:1"; Size := 1024 |})
            "" None).
Proof.
  refine (proj1 (Run_classic_returns_handle app_host
                   (spec_img1 "/app" "/app/Dockerfile" false) 1
                   "/app/Dockerfile" "Dockerfile"
                   {| sourcePath := "/app"; compressed := false;
                      exclusions := []; additions := ∅ |}
                   {| ServerVersion := "24.0.7"; OSType := "linux";
                      Architecture := "x86_64"; OSVersion := "" |}
                   [status_msg "Step 1/1 : FROM scratch"] "ID:sha256:abc"
                   "sha256:abc" 1024
                   _ _ _ _ _ _ _ _ _ _ _ _ _));
    try reflexivity.
  - left. split; reflexivity.
  - discriminate.
  - repeat constructor.
Defined.

(** C7. For every dockerfile path and working directory, packaging the
    build context passes a root-relative dockerfile path to the backend and
    injects nothing when the dockerfile lies inside the working directory;
    when it lies outside, the dockerfile's bytes are injected into the
    archive under the name [Dockerfile] and the relative path is empty.
    The ignore rules are read with the same relative path. *)
Theorem makeBuildContext_places_dockerfile w df opts remote r rel args :
  makeBuildContext w df opts remote = Ok r →
  relDockerfile w opts df = Ok rel →
  ibo_Dockerfile (classicBuildOptions w opts rel args) = rel ∧
  readDockerignore w (WorkingDir opts) (IgnorefilePath opts) rel = Ok (exclusions r) ∧
  if isPathInRoot w df (WorkingDir opts)
  then (∃ p, filepath_Rel w (WorkingDir opts) df = Ok p ∧ rel = filepath_ToSlash w p)
       ∧ additions r = ∅
  else rel = ""
       ∧ ∃ data, os_ReadFile w df = Ok data ∧ additions r = {[ "Dockerfile" := data ]}.
Proof.
  unfold makeBuildContext, relDockerfile. intros Hctx Hrel.
  split; [done|].
  destruct (isPathInRoot w df (WorkingDir opts)); simpl in Hctx.
  - destruct (filepath_Rel w (WorkingDir opts) df) as [p|e]; [|done].
    injection Hrel as <-.
    destruct (readDockerignore w _ _ _) as [excludes|e]; [|done].
    destruct (archiveDirectory w _); [done|]. injection Hctx as <-.
    simpl. eauto.
  - injection Hrel as <-.
    destruct (os_ReadFile w df) as [data|e]; [|done].
    destruct (readDockerignore w _ _ _) as [excludes|e]; [|done].
    destruct (archiveDirectory w _); [done|]. injection Hctx as <-.
    simpl. eauto.
Qed.

Lemma makeBuildContext_places_dockerfile_witness :
  (isPathInRoot outside_host "/ci/Dockerfile" "/app" = false ∧
   ∃ r, makeBuildContext outside_host "/ci/Dockerfile"
          (spec_img1 "/app" "/ci/Dockerfile" false) false = Ok r ∧
        additions r = {[ "Dockerfile" := FROM_scratch ]} ∧
        relDockerfile outside_host (spec_img1 "/app" "/ci/Dockerfile" false)
          "/ci/Dockerfile" = Ok "") ∧
  (isPathInRoot app_host "/app/Dockerfile" "/app" = true ∧
   ∃ r, makeBuildContext app_host "/app/Dockerfile"
          (spec_img1 "/app" "/app/Dockerfile" false) false = Ok r ∧
        additions r = ∅ ∧
        relDockerfile app_host (spec_img1 "/app" "/app/Dockerfile" false)
          "/app/Dockerfile" = Ok "Dockerfile").
Proof.
  split; (split; [reflexivity|]); eexists; (split; [reflexivity|]).
  - pose proof (makeBuildContext_places_dockerfile outside_host "/ci/Dockerfile"
                  (spec_img1 "/app" "/ci/Dockerfile" false) false _ "" ∅
                  eq_refl eq_refl) as (_ & _ & H).
    change (isPathInRoot outside_host "/ci/Dockerfile" _) with false in H.
    destruct H as (_ & data & Hread & Hadd). injection Hread as <-.
    split; [exact Hadd | reflexivity].
  - pose proof (makeBuildContext_places_dockerfile app_host "/app/Dockerfile"
                  (spec_img1 "/app" "/app/Dockerfile" false) false _ "Dockerfile" ∅
                  eq_refl eq_refl) as (_ & _ & H).
    change (isPathInRoot app_host "/app/Dockerfile" _) with true in H.
    destruct H as (_ & Hadd). split; [exact Hadd | reflexivity].
Defined.

Section solve_request.
Context (prefix : string).

Lemma kmap_prefix_size {A} (m : gmap string A) :
  size (kmap (M2 := gmap string) (String.append prefix) m) = size m.
Proof.
  induction m as [|k v m Hk IH] using map_ind.
  - by rewrite kmap_empty, !map_size_empty.
  - rewrite kmap_insert by apply _.
    rewrite !map_size_insert_None; [by rewrite IH | done |].
    by rewrite lookup_kmap by apply _.
Qed.

(** [for k, v := range m { attrs[prefix+k] = v }] *)
Lemma range_insert_prefixed (m attrs : gmap string string) :
  map_fold (λ k v attrs, <[prefix +:+ k := v]> attrs) attrs m =
    kmap (String.append prefix) m ∪ attrs.
Proof.
  apply (map_fold_weak_ind (λ r m, r = kmap (String.append prefix) m ∪ attrs)).
  - by rewrite kmap_empty, (left_id_L ∅ (∪)).
  - intros k v m' r Hk ->. rewrite kmap_insert by apply _.
    by rewrite insert_union_l.
Qed.

(** The same with the nil values skipped. *)
Lemma range_insert_prefixed_non_nil (m : gmap string (option string))
    (attrs : gmap string string) :
  map_fold (λ k v attrs, match v with
                         | None => attrs
                         | Some v => <[prefix +:+ k := v]> attrs
                         end) attrs m =
    kmap (String.append prefix) (omap id m) ∪ attrs.
Proof.
  apply (map_fold_weak_ind
           (λ r m, r = kmap (String.append prefix) (omap id m) ∪ attrs)).
  - by rewrite omap_empty, kmap_empty, (left_id_L ∅ (∪)).
  - intros k [v|] m' r Hk ->.
    + rewrite (omap_insert_Some _ _ _ _ v) by done.
      rewrite kmap_insert by apply _. by rewrite insert_union_l.
    + rewrite omap_insert_None by done.
      rewrite delete_id; [done|]. by rewrite lookup_omap, Hk.
Qed.
End solve_request.

Lemma normalizeBuildArgsForDocker_resolved (buildArgs : gmap string string) :
  normalizeBuildArgsForDocker buildArgs = Ok (Some <$> buildArgs).
Proof.
  unfold normalizeBuildArgsForDocker. f_equal.
  apply (map_fold_weak_ind (λ r m, r = Some <$> m)).
  - by rewrite fmap_empty.
  - intros k v m r _ ->. by rewrite fmap_insert.
Qed.

Lemma omap_id_resolved (buildArgs : gmap string string) :
  omap id (Some <$> buildArgs) = buildArgs.
Proof.
  apply map_eq. intros k. rewrite lookup_omap, lookup_fmap.
  by destruct (buildArgs !! k).
Qed.

Lemma prefixed_disjoint_fixed {A} (prefix : string) (m fixed : gmap string A) :
  (∀ k, fixed !! (prefix +:+ k) = None) →
  kmap (M2 := gmap string) (String.append prefix) m ##ₘ fixed.
Proof.
  intros Hfixed. apply map_disjoint_spec. intros i x y Hi Hy.
  apply (lookup_kmap_Some _) in Hi as (k & -> & _). by rewrite Hfixed in Hy.
Qed.

(** C8. For every build specification the solve request of the session
    path has the dockerfile frontend; its attributes are exactly
    [filename] (the base name of the dockerfile), [target], the platform
    pin, the [no-cache] marker if and only if the no-cache flag is set, one
    [label:<k>] entry per label and one [build-arg:<k>] entry per resolved
    build argument, all on different keys; its local directories are the
    directory of the dockerfile and the working directory; its export entry
    keeps the image in the daemon's image store under the requested tag.
    The build arguments that [Run] resolves are all the arguments of the
    specification. *)
Theorem solveOptFromImageOptions_request w opts df buildArgs :
  let o := solveOptFromImageOptions w opts df buildArgs in
  let fixed : gmap string string :=
    {[ "filename" := filepath_Base w df;
       "target" := Target opts;
       "platform" := "linux/amd64" ]} in
  let marker : gmap string string :=
    if NoCache opts then {[ "no-cache" := "" ]} else ∅ in
  let labels : gmap string string := kmap (String.append "label:") (Label opts) in
  let args : gmap string string :=
    kmap (String.append "build-arg:") (omap id buildArgs) in
  Frontend o = "dockerfile.v0" ∧
  FrontendAttrs o = args ∪ (labels ∪ (marker ∪ fixed)) ∧
  size (FrontendAttrs o) =
    (3 + (if NoCache opts then 1 else 0) + size (Label opts)
     + size (omap id buildArgs))%nat ∧
  (∀ resolved, normalizeBuildArgsForDocker (BuildArgs opts) = Ok resolved →
               omap id resolved = BuildArgs opts) ∧
  LocalDirs o = {[ "dockerfile" := filepath_Dir w df; "context" := WorkingDir opts ]} ∧
  Exports o = [ {| ee_Type := "moby"; ee_Attrs := {[ "name" := Tag opts ]} |} ].
Proof.
  intros o fixed marker labels args.
  assert (FrontendAttrs o = args ∪ (labels ∪ (marker ∪ fixed))) as Hattrs.
  { unfold o, solveOptFromImageOptions. simpl.
    rewrite range_insert_prefixed_non_nil, range_insert_prefixed.
    do 2 f_equal. unfold marker, fixed.
    rewrite (insert_insert_ne _ "target" "filename") by done.
    rewrite insert_insert_eq.
    destruct (NoCache opts).
    - by rewrite insert_union_singleton_l.
    - by rewrite (left_id_L ∅ (∪)). }
  assert (size fixed = 3%nat) as Hfixed by reflexivity.
  assert (marker ##ₘ fixed) as Hmf.
  { unfold marker. destruct (NoCache opts); [|apply map_disjoint_empty_l].
    by apply map_disjoint_singleton_l_2. }
  assert (labels ##ₘ marker ∪ fixed) as Hlm.
  { apply prefixed_disjoint_fixed. intros k. apply lookup_union_None_2.
    - unfold marker. by destruct (NoCache opts).
    - done. }
  assert (args ##ₘ labels ∪ (marker ∪ fixed)) as Hal.
  { apply map_disjoint_union_r_2.
    - apply map_disjoint_spec. intros i x y Hi Hy.
      apply (lookup_kmap_Some _) in Hi as (k & -> & _).
      apply (lookup_kmap_Some _) in Hy as (k' & Heq & _). discriminate.
    - apply prefixed_disjoint_fixed. intros k. apply lookup_union_None_2.
      + unfold marker. by destruct (NoCache opts).
      + done. }
  split_and!; [reflexivity | exact Hattrs | | | reflexivity | reflexivity].
  - rewrite Hattrs.
    rewrite !map_size_disj_union by done.
    unfold args, labels. rewrite !kmap_prefix_size, Hfixed.
    unfold marker. destruct (NoCache opts).
    + rewrite map_size_singleton. lia.
    + rewrite map_size_empty. lia.
  - intros resolved. rewrite normalizeBuildArgsForDocker_resolved.
    intros [= <-]. apply omap_id_resolved.
Qed.

(** C9. The push retry loop waits a fixed 3 seconds between calls and
    has no limit on their number: for every [n], when the first [n] pushes
    fail and the context is not done, each failure is reported to the
    retry hook and followed by the delay before the next call, and a
    success of the next push ends [pushToFly] in success after [n + 1]
    calls; when the context is done instead, the loop gives up with the
    error of the context and calls the push function no more.  A push
    that fails twice and succeeds on the third call gives success with
    exactly three calls. *)
Theorem pushToFly_retry_policy w tag errs n fuel :
  (∀ i, (i < n)%nat → attempt w tag i = Some (errs i)) →
  (∀ i, (i < n)%nat → ctx_Done w i = None) →
  (n < fuel)%nat →
  let auth := Tokens_Docker w in
  (ctx_Done w n = None → attempt w tag n = None →
   pushToFly w tag fuel =
     (Next None,
      failed_rounds tag auth (3 * Second) errs 0 n ++ [ImagePushCall tag auth]) ∧
   pushes (pushToFly w tag fuel).2 = S n) ∧
  (∀ c, ctx_Done w n = Some c →
   retry_Do w (pushFn w tag) (3 * Second) fuel =
     (Next (Some (ContextErr c)), cancelled_rounds tag auth (3 * Second) errs n) ∧
   pushes (retry_Do w (pushFn w tag) (3 * Second) fuel).2 = n) ∧
  Forall (λ e, ∀ d, e = Sleep d → d = 3 * Second) (pushToFly w tag fuel).2.
Proof.
  intros Hfail Hctx Hfuel auth. split_and!.
  - intros Hn Hok.
    assert (pushToFly w tag fuel =
              (Next None,
               failed_rounds tag auth (3 * Second) errs 0 n ++
               [ImagePushCall tag auth])) as Heq.
    { unfold pushToFly, retry_Do.
      assert (ctx_Done w 0 = None) as -> by (destruct n; [done | apply Hctx; lia]).
      rewrite (retry_loop_succeeds w tag (3 * Second) errs n 0 fuel); try done.
      - simpl. by rewrite app_nil_r.
      - intros i Hi. destruct (decide (S i = n)) as [<- | Hne]; [done|].
        apply Hctx. lia. }
    split; [done|]. rewrite Heq. simpl.
    rewrite pushes_app, pushes_failed_rounds. simpl. lia.
  - intros c Hc.
    assert (retry_Do w (pushFn w tag) (3 * Second) fuel =
              (Next (Some (ContextErr c)),
               cancelled_rounds tag auth (3 * Second) errs n)) as Heq.
    { unfold retry_Do, cancelled_rounds. destruct n as [|n]; [by rewrite Hc|].
      rewrite (Hctx 0%nat) by lia.
      apply (retry_loop_aborts w tag (3 * Second) errs n 0 fuel c); try done.
      - intros i Hi. apply Hfail. lia.
      - intros i Hi. apply Hctx. lia.
      - lia. }
    split; [done|]. rewrite Heq. unfold cancelled_rounds. destruct n as [|n]; [done|].
    simpl. rewrite pushes_app, pushes_failed_rounds. simpl. lia.
  - unfold pushToFly.
    destruct (retry_Do_result w tag (3 * Second) fuel) as (_ & _ & Hs).
    destruct (retry_Do w (pushFn w tag) (3 * Second) fuel) as [[r|o|] l];
      simpl in *; by rewrite ?app_nil_r.
Qed.

Lemma pushToFly_retry_policy_witness :
  attempt flaky_push "img:1" 0 =
    Some (Wrapped "error pushing image to registry" connection_reset) ∧
  attempt flaky_push "img:1" 1 =
    Some (Wrapped "error pushing image to registry" connection_reset) ∧
  attempt flaky_push "img:1" 2 = None ∧
  pushToFly flaky_push "img:1" 3 =
    (Next None,
     [ImagePushCall "img:1" "fly-token";
      OnRetry 1 (Wrapped "error pushing image to registry" connection_reset);
      Sleep 3000000000;
      ImagePushCall "img:1" "fly-token";
      OnRetry 2 (Wrapped "error pushing image to registry" connection_reset);
      Sleep 3000000000;
      ImagePushCall "img:1" "fly-token"]) ∧
  pushes (pushToFly flaky_push "img:1" 3).2 = 3%nat.
Proof.
  split; [reflexivity|]. split; [reflexivity|]. split; [reflexivity|].
  assert (∀ i, (i < 2)%nat →
            attempt flaky_push "img:1" i =
              Some (Wrapped "error pushing image to registry" connection_reset))
    as Hfail.
  { intros i Hi. destruct i as [|[|i]]; [reflexivity | reflexivity | lia]. }
  exact (proj1 (pushToFly_retry_policy flaky_push "img:1"
                  (λ _, Wrapped "error pushing image to registry" connection_reset)
                  2 3 Hfail (λ _ _, eq_refl) ltac:(lia))
           eq_refl eq_refl).
Defined.

(** * Further properties *)

(** ** Postgres machines *)

(** X1. [IsFlex] holds exactly for a machine that is there and whose
    image label [fly.pg-manager] is [repmgr]; a nil machine and a machine
    without labels are not flex. *)
Theorem IsFlex_iff_repmgr_label (machine : option postgres.Machine) :
  postgres.IsFlex machine = true ↔
  ∃ m, machine = Some m ∧ postgres.Labels m !! "fly.pg-manager" = Some "repmgr".
Proof.
  unfold postgres.IsFlex, postgres.index. destruct machine as [m|];
    [|split; [done | by intros (? & [=] & _)]].
  destruct (Nat.eqb_spec (size (postgres.Labels m)) 0) as [Hz|Hnz].
  - apply map_size_empty_iff in Hz. split; [done|].
    intros (m' & [= <-] & H). by rewrite Hz, lookup_empty in H.
  - destruct (postgres.Labels m !! "fly.pg-manager") as [v|] eqn:Hv; simpl.
    + destruct (String.eqb_spec v "repmgr") as [->|Hne]; [naive_solver|].
      split; [done|]. intros (m' & [= <-] & H). congruence.
    + split; [done|]. intros (m' & [= <-] & H). congruence.
Qed.

(** X2. The role of a machine is decided by its first check named
    [role]: its output when the check passes, [error] otherwise, whatever
    checks follow; a machine without such a check has role [unknown]. *)
Theorem machineRole_first_role_check (m : postgres.Machine) pre :
  Forall (λ c, postgres.Name c ≠ "role") pre →
  (postgres.Checks m = pre → postgres.machineRole m = "unknown") ∧
  (∀ c post,
     postgres.Checks m = pre ++ c :: post → postgres.Name c = "role" →
     postgres.machineRole m =
       if String.eqb (postgres.Status c) postgres.Passing
       then postgres.Output c else "error").
Proof.
  intros Hpre. unfold postgres.machineRole.
  assert (∀ rest role, postgres.machineRole_loop (pre ++ rest) role =
                       postgres.machineRole_loop rest role) as Hskip.
  { intros rest role. induction Hpre as [|c pre Hc _ IH]; [done|]. simpl.
    apply String.eqb_neq in Hc. by rewrite Hc. }
  split.
  - intros ->. specialize (Hskip [] "unknown"). by rewrite app_nil_r in Hskip.
  - intros c post -> Hc. rewrite Hskip. simpl.
    apply String.eqb_eq in Hc. by rewrite Hc.
Qed.

Lemma machineRole_first_role_check_witness :
  postgres.Checks failing_primary =
    [pg_check] ++ [role_check "critical" "primary"; role_check "passing" "replica"] ∧
  postgres.machineRole failing_primary = "error".
Proof.
  split; [reflexivity|].
  refine (proj2 (machineRole_first_role_check failing_primary [pg_check] _)
            (role_check "critical" "primary") [role_check "passing" "replica"]
            eq_refl eq_refl).
  repeat constructor. discriminate.
Defined.

Lemma machinesNodeRoles_fold (ms : list postgres.Machine) : ∀ leader replicas,
  fold_left
    (λ '(leader, replicas) machine,
       let role := postgres.machineRole machine in
       if String.eqb role "leader" || String.eqb role "primary" then
         (Some machine, replicas)
       else if String.eqb role "replica" || String.eqb role "standby" then
         (leader, replicas ++ [machine])
       else (leader, replicas ++ [machine]))
    ms (leader, replicas) =
  (match last (List.filter postgres.isLeader ms) with
   | Some m => Some m
   | None => leader
   end,
   replicas ++ List.filter (λ m, negb (postgres.isLeader m)) ms).
Proof.
  induction ms as [|m ms IH]; intros leader replicas.
  { simpl. by rewrite app_nil_r. }
  cbn [fold_left List.filter].
  change (String.eqb (postgres.machineRole m) "leader" ||
          String.eqb (postgres.machineRole m) "primary")
    with (postgres.isLeader m).
  destruct (postgres.isLeader m); cbn [negb].
  - rewrite IH, last_cons. by destruct (last _).
  - assert (∀ r, (if String.eqb (postgres.machineRole m) "replica" ||
                     String.eqb (postgres.machineRole m) "standby"
                  then (leader, r ++ [m]) else (leader, r ++ [m]))
                 = (leader, r ++ [m])) as -> by (intros; by destruct (_ || _)).
    rewrite IH. by rewrite <- app_assoc.
Qed.

(** X3. [machinesNodeRoles] returns as leader the last machine whose role
    is [leader] or [primary], nil when there is none, and as replicas all
    machines of any other role, in their order; a machine that is a leader
    is never among the replicas, so the replicas and the machines with a
    leader role together are all the machines. *)
Theorem machinesNodeRoles_last_leader (ms : list postgres.Machine) :
  (postgres.machinesNodeRoles ms).1 = last (List.filter postgres.isLeader ms) ∧
  (postgres.machinesNodeRoles ms).2 =
    List.filter (λ m, negb (postgres.isLeader m)) ms ∧
  (length (postgres.machinesNodeRoles ms).2 +
   length (List.filter postgres.isLeader ms))%nat = length ms.
Proof.
  unfold postgres.machinesNodeRoles. rewrite machinesNodeRoles_fold. simpl.
  split_and!.
  - by destruct (last _).
  - done.
  - induction ms as [|m ms IH]; [done|]. simpl.
    destruct (postgres.isLeader m); simpl; lia.
Qed.

Lemma pickLeader_head (ms : list postgres.Machine) :
  postgres.pickLeader ms =
    match head (List.filter postgres.isLeader ms) with
    | Some m => Ok m
    | None => Err (Opaque "no active leader found")
    end.
Proof.
  induction ms as [|m ms IH]; [done|]. simpl. by destruct (postgres.isLeader m).
Qed.

Lemma machinesNodeRoles_leader (ms : list postgres.Machine) :
  (postgres.machinesNodeRoles ms).1 = last (List.filter postgres.isLeader ms).
Proof.
  unfold postgres.machinesNodeRoles. rewrite machinesNodeRoles_fold. simpl.
  by destruct (last _).
Qed.

(** X4. [pickLeader] returns the first machine whose role is [leader] or
    [primary], and the error [no active leader found] exactly when no
    machine has such a role; it finds a leader exactly when
    [machinesNodeRoles] does, and the same one when exactly one machine
    is a leader. *)
Theorem pickLeader_first_leader (ms : list postgres.Machine) :
  postgres.pickLeader ms =
    match head (List.filter postgres.isLeader ms) with
    | Some m => Ok m
    | None => Err (Opaque "no active leader found")
    end ∧
  (postgres.pickLeader ms = Err (Opaque "no active leader found") ↔
   (postgres.machinesNodeRoles ms).1 = None) ∧
  (∀ m, List.filter postgres.isLeader ms = [m] →
        postgres.pickLeader ms = Ok m ∧ (postgres.machinesNodeRoles ms).1 = Some m).
Proof.
  pose proof (pickLeader_head ms) as Hfirst.
  pose proof (machinesNodeRoles_leader ms) as Hlast.
  split_and!; [done | |].
  - rewrite Hfirst, Hlast.
    destruct (List.filter postgres.isLeader ms) as [|m l] eqn:Hf; simpl; [done|].
    split; [done|]. rewrite last_cons. by destruct (last l).
  - intros m Hm. rewrite Hfirst, Hlast, Hm. done.
Qed.

(** ** Image versions *)

Lemma checkMachine_passes ver m cluster flex standalone :
  postgres.checkMachine ver m cluster flex standalone = None →
  postgres.ImageVersion m ≠ "" ∧ postgres.ImageVersion m ≠ "unknown" ∧
  ∃ imageVersion requiredVersion,
    postgres.NewVersion ver (postgres.drop_first (postgres.ImageVersion m))
      = Ok imageVersion ∧
    required_version ver m cluster flex standalone = Ok requiredVersion ∧
    postgres.LessThan ver imageVersion requiredVersion = false.
Proof.
  unfold postgres.checkMachine, required_version.
  generalize (postgres.IsFlex (Some m)). intros isFlex.
  destruct (String.eqb_spec (postgres.ImageVersion m) "") as [|He]; [done|].
  destruct (String.eqb_spec (postgres.ImageVersion m) "unknown") as [|Hu]; [done|].
  simpl.
  destruct (postgres.NewVersion ver (postgres.drop_first _)) as [iv|e]; [|done].
  intros H. split_and!; [done | done |]. exists iv.
  destruct (String.eqb (postgres.ImageRepository m) "flyio/postgres-standalone");
    destruct (String.eqb (postgres.ImageRepository m) "flyio/postgres");
    destruct (String.eqb (postgres.ImageRepository m) "flyio/postgres-timescaledb");
    destruct isFlex;
    destruct (postgres.NewVersion ver standalone) as [vs|es];
    destruct (postgres.NewVersion ver cluster) as [vc|ec];
    destruct (postgres.NewVersion ver flex) as [vf|ef];
    simpl in H; try discriminate;
    destruct (postgres.LessThan ver iv _) eqn:Hlt; try discriminate; eauto.
Qed.

(** X5. When [FLY_DEV] is not set and [hasRequiredVersionOnMachines]
    returns nil, every machine has an image version that is neither empty
    nor [unknown], that parses once its first character is dropped, and
    that is not less than the version required of it: [flex] for a flex
    machine, else [cluster] for the cluster images, else [standalone] for
    the standalone image. *)
Theorem hasRequiredVersionOnMachines_nil_sound ver machines cluster flex standalone :
  postgres.hasRequiredVersionOnMachines ver false machines cluster flex standalone
    = None →
  Forall (λ m,
    postgres.ImageVersion m ≠ "" ∧ postgres.ImageVersion m ≠ "unknown" ∧
    ∃ imageVersion requiredVersion,
      postgres.NewVersion ver (postgres.drop_first (postgres.ImageVersion m))
        = Ok imageVersion ∧
      required_version ver m cluster flex standalone = Ok requiredVersion ∧
      postgres.LessThan ver imageVersion requiredVersion = false) machines.
Proof.
  unfold postgres.hasRequiredVersionOnMachines.
  induction machines as [|m ms IH]; simpl; [constructor|].
  destruct (postgres.checkMachine ver m cluster flex standalone) eqn:Hm; [done|].
  intros Hrest. constructor; [by apply checkMachine_passes | by apply IH].
Qed.

Lemma hasRequiredVersionOnMachines_nil_sound_witness :
  postgres.hasRequiredVersionOnMachines dotted_versions false pg_cluster
    "0.0.20" "0.0.29" "0.0.4" = None ∧
  Forall (λ m,
    postgres.ImageVersion m ≠ "" ∧ postgres.ImageVersion m ≠ "unknown" ∧
    ∃ imageVersion requiredVersion,
      postgres.NewVersion dotted_versions
        (postgres.drop_first (postgres.ImageVersion m)) = Ok imageVersion ∧
      required_version dotted_versions m "0.0.20" "0.0.29" "0.0.4"
        = Ok requiredVersion ∧
      postgres.LessThan dotted_versions imageVersion requiredVersion = false)
    pg_cluster.
Proof.
  split; [reflexivity|].
  apply (hasRequiredVersionOnMachines_nil_sound dotted_versions pg_cluster
           "0.0.20" "0.0.29" "0.0.4").
  reflexivity.
Defined.

(** X6. Every error of [hasRequiredVersionOnMachines] is one of three:
    [command is not compatible with this image], an error of the version
    parser on the image version of a machine or on one of the three required
    versions, or the report of a machine whose image version is less than
    the required one.  The error [unable to resolve image version] of the
    source is never built. *)
Theorem hasRequiredVersionOnMachines_errors ver dev machines cluster flex standalone e :
  postgres.hasRequiredVersionOnMachines ver dev machines cluster flex standalone
    = Some e →
  dev = false ∧
  ∃ m, m ∈ machines ∧
    (e = Opaque "command is not compatible with this image" ∨
     (∃ s, s ∈ [postgres.drop_first (postgres.ImageVersion m);
                cluster; flex; standalone] ∧
           postgres.NewVersion ver s = Err e) ∨
     (∃ imageVersion requiredVersion,
        postgres.NewVersion ver (postgres.drop_first (postgres.ImageVersion m))
          = Ok imageVersion ∧
        postgres.LessThan ver imageVersion requiredVersion = true ∧
        e = postgres.incompatible ver m imageVersion requiredVersion)).
Proof.
  unfold postgres.hasRequiredVersionOnMachines. destruct dev; [done|].
  intros H. split; [done|].
  induction machines as [|m ms IH]; simpl in H; [done|].
  destruct (postgres.checkMachine ver m cluster flex standalone) as [e'|] eqn:Hm.
  2:{ destruct (IH H) as (m' & Hin & Hcase). exists m'. split; [by right | done]. }
  injection H as ->. exists m. split; [by left|].
  unfold postgres.checkMachine in Hm.
  revert Hm. generalize (postgres.IsFlex (Some m)). intros isFlex Hm.
  destruct (String.eqb (postgres.ImageVersion m) "" ||
            String.eqb (postgres.ImageVersion m) "unknown").
  { injection Hm as <-. by left. }
  destruct (postgres.NewVersion ver (postgres.drop_first _)) as [iv|e0] eqn:Hiv.
  2:{ injection Hm as <-. right; left. eexists. split; [|done]. set_solver. }
  destruct (String.eqb (postgres.ImageRepository m) "flyio/postgres-standalone");
    destruct (String.eqb (postgres.ImageRepository m) "flyio/postgres");
    destruct (String.eqb (postgres.ImageRepository m) "flyio/postgres-timescaledb");
    destruct isFlex;
    destruct (postgres.NewVersion ver standalone) as [vs|es] eqn:Hs;
    destruct (postgres.NewVersion ver cluster) as [vc|ec] eqn:Hc;
    destruct (postgres.NewVersion ver flex) as [vf|ef] eqn:Hf;
    simpl in Hm;
    try (injection Hm as <-; right; left; eexists; split; [|eassumption]; set_solver);
    destruct (postgres.LessThan ver iv _) eqn:Hlt; try discriminate;
    injection Hm as <-; right; right; eauto.
Qed.

Lemma hasRequiredVersionOnMachines_errors_witness :
  postgres.hasRequiredVersionOnMachines dotted_versions false pg_cluster
    "0.0.20" "0.0.32" "0.0.4" =
    Some (postgres.incompatible dotted_versions
            (pg_machine "c" "v0.0.29" "repmgr" "replica")
            [0; 0; 29]%nat [0; 0; 32]%nat) ∧
  ∃ m, m ∈ pg_cluster.
Proof.
  split; [reflexivity|].
  destruct (hasRequiredVersionOnMachines_errors dotted_versions false pg_cluster
              "0.0.20" "0.0.32" "0.0.4" _ eq_refl) as (_ & m & Hin & _).
  by exists m.
Defined.

(** X7. The machines are checked in their order and the first one that
    fails decides: when the machines before [m] pass, the result for the
    whole list is the error of [m], whatever machines follow. *)
Theorem hasRequiredVersionOnMachines_first_failure ver pre m post cluster flex standalone e :
  postgres.hasRequiredVersionOnMachines ver false pre cluster flex standalone = None →
  postgres.checkMachine ver m cluster flex standalone = Some e →
  postgres.hasRequiredVersionOnMachines ver false (pre ++ m :: post)
    cluster flex standalone = Some e.
Proof.
  unfold postgres.hasRequiredVersionOnMachines. intros Hpre Hm.
  induction pre as [|p pre IH]; simpl in *; [by rewrite Hm|].
  destruct (postgres.checkMachine ver p cluster flex standalone); [done|].
  by apply IH.
Qed.

Lemma hasRequiredVersionOnMachines_first_failure_witness :
  postgres.hasRequiredVersionOnMachines dotted_versions false
    ([pg_machine "a" "v0.0.41" "repmgr" "replica"] ++
     pg_machine "b" "unknown" "repmgr" "primary" ::
     [pg_machine "c" "v0.0.1" "repmgr" "replica"])
    "0.0.20" "0.0.29" "0.0.4" =
    Some (Opaque "command is not compatible with this image").
Proof.
  apply (hasRequiredVersionOnMachines_first_failure dotted_versions
           [pg_machine "a" "v0.0.41" "repmgr" "replica"]
           (pg_machine "b" "unknown" "repmgr" "primary")
           [pg_machine "c" "v0.0.1" "repmgr" "replica"]);
    reflexivity.
Defined.

(** ** Unregistering a member *)

(** X8. [UnregisterMember] sends at most one request, and a request it
    sends goes to the first active machine whose role is [leader] or
    [primary] and names the address of the machine to unregister; its
    result is then the answer to that request.  When the machines cannot
    be listed, no active machine is a leader, or the command cannot be
    made, it fails without a request. *)
Theorem UnregisterMember_asks_first_leader (c : postgres.Cluster) (machine : postgres.Machine) :
  let '(err, requests) := postgres.UnregisterMember c machine in
  (requests = [] ∧ ∃ e, err = Some e ∧
     (postgres.ListActive c = Err e ∨
      (∃ ms, postgres.ListActive c = Ok ms ∧
             List.filter postgres.isLeader ms = [] ∧
             e = Opaque "no active leader found") ∨
      postgres.NewCommand c = Some e)) ∨
  (∃ ms leader,
     postgres.ListActive c = Ok ms ∧
     head (List.filter postgres.isLeader ms) = Some leader ∧
     requests = [(postgres.PrivateIP leader, postgres.PrivateIP machine)] ∧
     err = postgres.cmd_UnregisterMember c (postgres.PrivateIP leader)
             (postgres.PrivateIP machine)).
Proof.
  unfold postgres.UnregisterMember.
  destruct (postgres.ListActive c) as [ms|e] eqn:Hl.
  2:{ left. split; [done|]. exists e. split; [done|]. by left. }
  rewrite pickLeader_head.
  destruct (List.filter postgres.isLeader ms) as [|leader l] eqn:Hf; simpl.
  { left. split; [done|]. eexists. split; [done|]. right; left. eauto. }
  destruct (postgres.NewCommand c) as [e|] eqn:Hn.
  { left. split; [done|]. exists e. split; [done|]. by right; right. }
  right. exists ms, leader. by rewrite Hf.
Qed.

(** ** Destroying an Enveloop project *)

(** X9. [runDestroy] asks the platform to delete an add-on only when it is
    the extension that was discovered and either the [--yes] flag is set
    or the user has confirmed at the prompt; without the flag the warning
    and the question come before the deletion. *)
Theorem runDestroy_deletes_only_with_consent (s : enveloop.Session) name :
  enveloop.DeleteCall name ∈ (enveloop.runDestroy s).2 →
  enveloop.Discover s = Ok name ∧
  (enveloop.GetYes s = true ∨
   (∃ question, enveloop.Confirmf s question = (true, None)) ∧
   ∃ acts, (enveloop.runDestroy s).2 =
             enveloop.Warned "Destroying an Upstash Enveloop project is not reversible."
             :: enveloop.Asked ("Do you want to destroy the index named " +:+ name +:+ "?")
             :: enveloop.DeleteCall name :: acts).
Proof.
  unfold enveloop.runDestroy.
  destruct (enveloop.Discover s) as [n|e]; simpl; [|by intros ?%elem_of_nil].
  destruct (enveloop.GetYes s); simpl.
  - destruct (enveloop.DeleteAddOn s n); simpl; intros Hin;
      assert (n = name) as -> by set_solver; auto.
  - destruct (enveloop.Confirmf s _) as [confirmed [e|]] eqn:Hc.
    + destruct (enveloop.IsNonInteractive s e); simpl; set_solver.
    + destruct confirmed; simpl; [|set_solver].
      destruct (enveloop.DeleteAddOn s n); simpl; intros Hin;
        assert (n = name) as -> by set_solver; eauto 10.
Qed.

Lemma runDestroy_deletes_only_with_consent_witness :
  enveloop.DeleteCall "mail" ∈ (enveloop.runDestroy yes_session).2 ∧
  enveloop.Discover yes_session = Ok "mail" ∧
  enveloop.GetYes yes_session = true.
Proof.
  assert (enveloop.DeleteCall "mail" ∈ (enveloop.runDestroy yes_session).2) as Hin
    by (vm_compute; left).
  split; [exact Hin|].
  destruct (runDestroy_deletes_only_with_consent yes_session "mail" Hin) as [Hd _].
  split; [exact Hd | reflexivity].
Defined.

(** X10. [runDestroy] returns nil in two cases only: the user declined at
    the prompt, and then nothing was deleted and nothing reported; or the
    platform deleted the add-on, and then the last thing done is the
    report that the project was destroyed.  The report is made in no other
    run. *)
Theorem runDestroy_nil_result (s : enveloop.Session) :
  let '(err, acts) := enveloop.runDestroy s in
  (err = None →
   (enveloop.GetYes s = false ∧
    (∃ question, enveloop.Confirmf s question = (false, None)) ∧
    ∀ a, a ∈ acts → ∃ msg, a = enveloop.Warned msg ∨ a = enveloop.Asked msg) ∨
   (∃ name pre msg,
      enveloop.DeleteAddOn s name = None ∧
      acts = pre ++ [enveloop.DeleteCall name; enveloop.Reported msg])) ∧
  (∀ msg, enveloop.Reported msg ∈ acts → err = None).
Proof.
  unfold enveloop.runDestroy.
  destruct (enveloop.Discover s) as [n|e]; simpl; [|split; [done | set_solver]].
  destruct (enveloop.GetYes s); simpl.
  - destruct (enveloop.DeleteAddOn s n) eqn:Hd; simpl; (split; [|set_solver]);
      [done|]. intros _. right. exists n, []. by eexists.
  - destruct (enveloop.Confirmf s _) as [confirmed [e|]] eqn:Hc.
    + destruct (enveloop.IsNonInteractive s e); simpl; (split; [done | set_solver]).
    + destruct confirmed; simpl.
      * destruct (enveloop.DeleteAddOn s n) eqn:Hd; simpl; (split; [|set_solver]);
          [done|]. intros _. right. exists n. by eexists [_; _], _.
      * split; [|set_solver]. intros _. left. split; [done|]. split; [eauto|].
        intros a Ha. apply elem_of_cons in Ha as [-> | Ha]; [eauto|].
        apply elem_of_cons in Ha as [-> | Ha]; [eauto|]. by apply elem_of_nil in Ha.
Qed.

(** ** The Dockerfile builder *)

(** X11. When the daemon is available and the dockerfile path that is
    given does not exist, [Run] returns the error
    [dockerfile '<path>' not found] and nothing else: the build timer is
    closed, the builder is not connected and no driver runs. *)
Theorem Run_missing_dockerfile_override w opts fuel :
  mode_IsAvailable w = true →
  DockerfilePath opts ≠ "" →
  FileExists w (DockerfilePath opts) = false →
  exec (Run w opts fuel) =
    (Some (Returned None ""
       (Some (Opaque ("dockerfile '" +:+ DockerfilePath opts +:+ "' not found")))),
     [Start Build; Finish Build]).
Proof.
  intros Hav Hne Hex. unfold Run. rewrite Hav.
  apply String.eqb_neq in Hne. by rewrite Hne, Hex.
Qed.

Lemma Run_missing_dockerfile_override_witness :
  FileExists app_host "/app/Dockerfile.web" = false ∧
  exec (Run app_host (spec_img1 "/app" "/app/Dockerfile.web" false) 1) =
    (Some (Returned None "" (Some (Opaque "dockerfile '/app/Dockerfile.web' not found"))),
     [Start Build; Finish Build]).
Proof.
  split; [reflexivity|].
  apply (Run_missing_dockerfile_override app_host
           (spec_img1 "/app" "/app/Dockerfile.web" false) 1);
    [reflexivity | discriminate | reflexivity].
Defined.



(** X13. The classification after the retry loop looks through every
    wrapping of the error: an access-denied response of the registry,
    however often wrapped, becomes the authorization error that carries the
    tag; the classification yields no other error, and yields this one only
    for an error whose innermost registry response is the access-denied
    message. *)
Theorem pushToFly_classify_unwraps (tag : string) :
  (∀ msgs code,
     pushToFly_classify (Some (foldr Wrapped (JSONError code access_denied) msgs)) tag
       = Some (RegistryUnauthorizedError tag)) ∧
  (∀ err e,
     pushToFly_classify err tag = Some e →
     e = RegistryUnauthorizedError tag ∧
     ∃ inner code, err = Some inner ∧
                   errors_As_JSONError inner = Some (code, access_denied)).
Proof.
  split.
  - intros msgs code. unfold pushToFly_classify. simpl.
    assert (errors_As_JSONError (foldr Wrapped (JSONError code access_denied) msgs)
              = Some (code, access_denied)) as ->
      by (induction msgs; simpl; auto).
    by rewrite String.eqb_refl.
  - intros [inner|] e; unfold pushToFly_classify; simpl; [|done].
    destruct (errors_As_JSONError inner) as [[code message]|] eqn:Has; [|done].
    destruct (String.eqb_spec message access_denied) as [->|]; [|done].
    intros [= <-]. eauto.
Qed.

(** X14. When [makeBuildContext] succeeds, the archive is made of the
    working directory, is compressed exactly when the builder is remote,
    and was accepted by [archiveDirectory]; when it fails, the error is the
    error of [filepath.Rel] as it is, or the error of reading the
    dockerfile, of reading the ignore file or of archiving, wrapped with
    the message of that step. *)
Theorem makeBuildContext_result w dockerfile opts isRemote :
  match makeBuildContext w dockerfile opts isRemote with
  | Ok r =>
      sourcePath r = WorkingDir opts ∧ compressed r = isRemote ∧
      archiveDirectory w r = None
  | Err e =>
      filepath_Rel w (WorkingDir opts) dockerfile = Err e ∨
      (∃ cause, os_ReadFile w dockerfile = Err cause ∧
                e = Wrapped "error reading Dockerfile" cause) ∨
      (∃ rel cause,
         readDockerignore w (WorkingDir opts) (IgnorefilePath opts) rel = Err cause ∧
         e = Wrapped "error reading .dockerignore" cause) ∨
      (∃ r cause, archiveDirectory w r = Some cause ∧
                  e = Wrapped "error archiving build context" cause)
  end.
Proof.
  unfold makeBuildContext.
  destruct (isPathInRoot w dockerfile (WorkingDir opts)); simpl.
  - destruct (filepath_Rel w (WorkingDir opts) dockerfile) as [p|e]; [|by left].
    destruct (readDockerignore w _ _ _) as [excludes|e] eqn:Hi; [|eauto 10].
    destruct (archiveDirectory w _) eqn:Ha; simpl; eauto 10.
  - destruct (os_ReadFile w dockerfile) as [data|e]; [|eauto 10].
    destruct (readDockerignore w _ _ _) as [excludes|e] eqn:Hi; [|eauto 10].
    destruct (archiveDirectory w _) eqn:Ha; simpl; eauto 10.
Qed.

(** ** The classic driver *)

Lemma DisplayJSONMessagesStream_app {S} (pre rest : list StreamItem)
    (cb : option (JSONMessage → S → S * log)) : ∀ s,
  Forall (λ item, displays item = true) pre →
  DisplayJSONMessagesStream (pre ++ rest) cb s =
    let '((s', _), l) := DisplayJSONMessagesStream pre cb s in
    let '(r, l') := DisplayJSONMessagesStream rest cb s' in
    (r, l ++ l').
Proof.
  intros s Hpre. revert s.
  induction Hpre as [|[jm|e] pre Hd _ IH]; intros s; simpl in *.
  - by destruct (DisplayJSONMessagesStream rest cb s).
  - destruct (Aux jm) as [a|] eqn:Ha.
    + destruct (match cb with Some cb0 => cb0 jm s | None => (s, []) end) as [s1 l1].
      rewrite IH.
      destruct (DisplayJSONMessagesStream pre cb s1) as [[s2 r2] l2].
      destruct (DisplayJSONMessagesStream rest cb s2) as [r3 l3].
      by rewrite app_assoc.
    + unfold JSONMessage_Display. destruct (Error jm); [done | apply IH].
  - done.
Qed.




(** X16. [runClassicBuild] stops at the first element of the stream that
    cannot be read or that carries an error: it returns that error,
    wrapped as [error rendering build status stream], without an image id,
    even when an id was captured before, and whatever follows in the stream
    is not read.  An error with code 401 is replaced by
    [authentication is required]. *)
Theorem runClassicBuild_first_stream_error w r opts rel args pre item post e :
  docker_ImageBuild w r (classicBuildOptions w opts rel args)
    = Ok (pre ++ item :: post) →
  Forall (λ item, displays item = true) pre →
  stream_error item = Some e →
  (runClassicBuild w r opts rel args).1 =
    Next (Err (Wrapped "error rendering build status stream" e)).
Proof.
  intros Hbuild Hpre Hitem. unfold runClassicBuild. rewrite Hbuild. simpl.
  rewrite (DisplayJSONMessagesStream_app pre _ _ "" Hpre).
  destruct (DisplayJSONMessagesStream pre _ "") as [[s1 r1] l1].
  destruct item as [jm|e']; simpl in *.
  - destruct (Aux jm); [done|]. by rewrite Hitem.
  - by injection Hitem as ->.
Qed.

Lemma runClassicBuild_first_stream_error_witness :
  (runClassicBuild
     (host true "/app" [] "" false build_failed (λ _, Ok []) (λ _, None))
     None (spec_img1 "/app" "" false) "Dockerfile" ∅).1 =
    Next (Err (Wrapped "error rendering build status stream"
                 (JSONError 1 "The command returned a non-zero code: 1"))).
Proof.
  exact (runClassicBuild_first_stream_error
           (host true "/app" [] "" false build_failed (λ _, Ok []) (λ _, None))
           None (spec_img1 "/app" "" false) "Dockerfile" ∅
           [status_msg "Step 1/2 : FROM scratch"; aux_msg "ID:sha256:abc"]
           (error_msg 1 "The command returned a non-zero code: 1")
           [status_msg "never read"] _ eq_refl
           ltac:(repeat constructor) eq_refl).
Defined.

(** ** The session driver *)

(** X17. [runBuildKitBuild] returns an image id exactly when the client
    could be made and neither task failed: the progress display ended
    without error and the solve answered.  The id is then the image digest
    of the answer, or the empty string when the answer has none.  The solve
    request is sent once, with the registry credentials and the build
    secrets as session providers, and not at all when the client could not
    be made. *)
Theorem runBuildKitBuild_result w opts dockerfilePath buildArgs :
  let request := session_request w opts dockerfilePath buildArgs in
  match runBuildKitBuild w opts dockerfilePath buildArgs with
  | (Next (Ok imageID), l) =>
      client_New w = None ∧ DisplaySolveStatus w = None ∧
      l = [SolveCall request] ∧
      ∃ response, bc_Solve w request = Ok response ∧
                  imageID = default "" (response !! "containerimage.digest")
  | (Next (Err e), l) =>
      (client_New w = Some e ∧ l = []) ∨
      (client_New w = None ∧ l = [SolveCall request] ∧
       (DisplaySolveStatus w = Some e ∨ bc_Solve w request = Err e))
  | _ => False
  end.
Proof.
  unfold runBuildKitBuild, session_request, eg_Wait. simpl.
  destruct (client_New w) as [e|]; simpl; [by left|].
  destruct (DisplaySolveStatus w) as [d|], (bc_Solve w _) as [resp|s] eqn:Hs; simpl.
  - right. split_and!; auto.
  - right. split_and!; [done | done |]. destruct (display_fails_first w); auto.
  - split_and!; [done | done | done |]. by exists resp.
  - right. split_and!; auto.
Qed.

(** ** The order of the timer calls *)

Lemma timeline_app l1 l2 : timeline (l1 ++ l2) = timeline l1 ++ timeline l2.
Proof. apply omap_app. Qed.

Lemma untimed_timeline l : untimed l → timeline l = [].
Proof. induction 1 as [|[] l H _ IH]; simpl; try done. Qed.

Ltac timeline_simpl :=
  repeat (rewrite ?timeline_app; simpl);
  repeat match goal with
         | H : untimed ?l |- _ => rewrite ?(untimed_timeline l H); clear H
         end;
  simpl.

Ltac timeline_in :=
  cbv [Run_timelines init_timelines build_timelines push_timelines fmap list_fmap app];
  repeat first [apply list_elem_of_here | apply list_elem_of_further].

Lemma Run_publish_timeline w opts fuel imageID :
  timeline (Run_publish w opts fuel imageID).2 ∈ push_timelines.
Proof.
  unfold Run_publish. destruct (Publish opts).
  - destruct (pushToFly_result w (Tag opts) fuel) as [Hr Hu].
    destruct (pushToFly w (Tag opts) fuel) as [c' l']. simpl in Hr, Hu.
    destruct Hr as [-> | ->]; simpl; timeline_simpl; timeline_in.
  - simpl. destruct (docker_ImageInspectWithRaw w imageID); simpl; timeline_in.
Qed.

Lemma Run_build_timeline w opts fuel df rel bk bctx :
  timeline (Run_build w opts fuel df rel bk bctx).2 ∈ build_timelines.
Proof.
  unfold Run_build, when, normalizeBuildArgsForDocker.
  destruct (docker_Info w) as [info|e].
  2:{ destruct (IsRemote w); simpl; timeline_in. }
  set (args := map_fold _ _ _).
  destruct (runClassicBuild_untimed w bctx opts rel args) as (rc & lc & Hrc & Huc).
  destruct (runBuildKitBuild_untimed w opts df args) as (rb & lb & Hrb & Hub).
  rewrite Hrc, Hrb. clear Hrc Hrb.
  assert (∀ id, ∃ c' l', Run_publish w opts fuel id = (c', l') ∧
            timeline l' ∈ push_timelines) as Hpub.
  { intros id. pose proof (Run_publish_timeline w opts fuel id) as Ht.
    destruct (Run_publish w opts fuel id) as [c' l']. eauto. }
  destruct bk; [destruct rb as [id|e] | destruct rc as [id|e]];
    try (destruct (Hpub id) as (c' & l' & Hp & Ht); simpl; rewrite Hp; simpl;
         timeline_simpl; unfold build_timelines;
         apply (list_elem_of_fmap_2
                  (app [(true, ImageBuild); (false, ImageBuild); (false, Build)])
                  _ (timeline l') Ht));
    destruct (IsRemote w); simpl; timeline_simpl; timeline_in.
Qed.

Lemma defer_timeline {A} (d : log) (body : prog A) :
  untimed d → timeline (defer_ d body).2 = timeline body.2.
Proof.
  intros Hd. unfold defer_. destruct body as [[a|[img wn e|code]|] l]; try done.
  simpl. by rewrite timeline_app, (untimed_timeline d Hd), app_nil_r.
Qed.

Lemma bind_timeline {A B} (m : prog A) (k : A → prog B) :
  timeline (m ≫= k).2 =
    match m.1 with
    | Next a => timeline m.2 ++ timeline (k a).2
    | _ => timeline m.2
    end.
Proof.
  unfold mbind, prog_bind. destruct m as [[a|o|] l]; simpl; try done.
  destruct (k a) as [c l']. simpl. apply timeline_app.
Qed.

Lemma emit_timeline {B} (e : Event) (k : unit → prog B) :
  timeline (emit e ≫= k).2 = timeline [e] ++ timeline (k tt).2.
Proof. by rewrite bind_timeline. Qed.

Lemma Run_init_timeline w opts fuel df rel :
  timeline (Run_init w opts fuel df rel).2 ∈ init_timelines.
Proof.
  unfold Run_init. destruct (buildFn w) as [e|]; [simpl; timeline_in|].
  rewrite emit_timeline.
  rewrite defer_timeline by (by repeat constructor).
  destruct (buildkitEnabled w) as [bk|e]; [|simpl; timeline_in].
  rewrite emit_timeline.
  rewrite defer_timeline by (destruct (IsLocal w); by repeat constructor).
  rewrite bind_timeline.
  unfold init_timelines. apply list_elem_of_further.
  apply (list_elem_of_fmap_2 (app [(true, BuilderInit); (false, BuilderInit)])).
  destruct bk; cbn [negb].
  - cbn [mret prog_ret fst snd timeline omap list_omap app].
    apply list_elem_of_further, elem_of_app. right. apply Run_build_timeline.
  - rewrite emit_timeline.
    destruct (makeBuildContext w df opts (IsRemote w)) as [r|e].
    + cbn -[Run_build build_timelines].
      apply list_elem_of_further, elem_of_app. left.
      apply (list_elem_of_fmap_2 (app [(true, ContextBuild); (false, ContextBuild)])).
      apply Run_build_timeline.
    + simpl. apply list_elem_of_here.
Qed.

Lemma Run_timeline w opts fuel :
  timeline (Run w opts fuel).2 ∈ Run_timelines.
Proof.
  unfold Run. rewrite emit_timeline.
  destruct (mode_IsAvailable w); cbn [negb]; [|simpl; timeline_in].
  rewrite bind_timeline.
  destruct (String.eqb (DockerfilePath opts) ""); cbn [negb].
  - cbn [mret prog_ret fst snd].
    destruct (String.eqb (ResolveDockerfile w (WorkingDir opts)) "");
      [simpl; timeline_in|].
    destruct (relDockerfile w opts _) as [rel|e]; [|simpl; timeline_in].
    unfold Run_timelines. do 2 apply list_elem_of_further.
    apply (list_elem_of_fmap_2 (app [(true, Build)])), Run_init_timeline.
  - destruct (FileExists w (DockerfilePath opts)); cbn [negb]; [|simpl; timeline_in].
    cbn [mret prog_ret fst snd].
    destruct (String.eqb (DockerfilePath opts) ""); [simpl; timeline_in|].
    destruct (relDockerfile w opts _) as [rel|e]; [|simpl; timeline_in].
    unfold Run_timelines. do 2 apply list_elem_of_further.
    apply (list_elem_of_fmap_2 (app [(true, Build)])), Run_init_timeline.
Qed.

(** X18. In every run of [Run], ended or not, no phase timer is started
    twice, and a timer is finished at most once and only after it was
    started. *)
Theorem Run_timers_proper w opts fuel :
  proper_from [] [] (timeline (Run w opts fuel).2) = true.
Proof.
  assert (Forall (λ t, proper_from [] [] t = true) Run_timelines) as Hall
    by (vm_compute; repeat constructor).
  rewrite Forall_forall in Hall. apply Hall, Run_timeline.
Qed.

(** ** What a run does under its configuration *)

Lemma bind_Forall {A B} (P : Event → Prop) (m : prog A) (k : A → prog B) :
  Forall P m.2 → (∀ a, m.1 = Next a → Forall P (k a).2) → Forall P (m ≫= k).2.
Proof.
  unfold mbind, prog_bind. destruct m as [[a|o|] l]; simpl; try done.
  intros Hm Hk. specialize (Hk a eq_refl). destruct (k a) as [c l']. simpl in *.
  by apply Forall_app.
Qed.

Lemma defer_Forall {A} (P : Event → Prop) (d : log) (body : prog A) :
  Forall P body.2 → Forall P d → Forall P (defer_ d body).2.
Proof.
  unfold defer_. destruct body as [[a|[img wn e|code]|] l]; simpl; try done.
  intros. by apply Forall_app.
Qed.

Lemma retry_loop_events w tag d fuel : ∀ k,
  Forall (λ e, match e with
               | ImagePushCall t _ => t = tag
               | OnRetry _ _ | Sleep _ => True
               | _ => False
               end) (retry_loop w (pushFn w tag) d fuel k).2.
Proof.
  induction fuel as [|fuel IH]; intros k; [constructor|].
  rewrite retry_loop_S.
  destruct (attempt w tag k); [|by repeat constructor].
  destruct (ctx_Done w (S k)); [by repeat constructor|].
  simpl. repeat constructor. apply IH.
Qed.

Lemma pushToFly_allowed w opts fuel :
  Publish opts = true → Forall (allowed w opts) (pushToFly w (Tag opts) fuel).2.
Proof.
  intros Hpub. unfold pushToFly. apply bind_Forall; [|by constructor].
  unfold retry_Do. destruct (ctx_Done w 0); [constructor|].
  eapply Forall_impl; [apply retry_loop_events|].
  intros [] He; simpl in *; try done.
Qed.

Lemma DisplayJSONMessagesStream_events w body : ∀ s,
  Forall (λ e, match e with AuxParseFailure _ => True | _ => False end)
    (DisplayJSONMessagesStream body (Some (idCallback w)) s).2.
Proof.
  induction body as [|[jm|e] body IH]; intros s; simpl; try by constructor.
  destruct (Aux jm) as [raw|] eqn:Haux.
  - unfold idCallback at 1. rewrite Haux.
    destruct (json_Unmarshal_BuildResult w raw) as [id err].
    specialize (IH id).
    destruct (DisplayJSONMessagesStream body _ id) as [r l]. simpl in *.
    apply Forall_app. split; [|done]. destruct err; by repeat constructor.
  - destruct (JSONMessage_Display jm); [by constructor | apply IH].
Qed.

Lemma runClassicBuild_allowed w r opts rel args :
  buildkitEnabled w = Ok false →
  Forall (allowed w opts) (runClassicBuild w r opts rel args).2.
Proof.
  intros Hbk. unfold runClassicBuild.
  apply bind_Forall; [by repeat constructor|]. intros _ _.
  destruct (docker_ImageBuild w r _) as [body|e]; [|constructor].
  pose proof (DisplayJSONMessagesStream_events w body "") as He.
  destruct (DisplayJSONMessagesStream body _ "") as [[id [e|]] l]; simpl in *;
    (eapply Forall_impl; [exact He|]); by intros [].
Qed.

Lemma runBuildKitBuild_allowed w opts df args :
  buildkitEnabled w = Ok true →
  Forall (allowed w opts) (runBuildKitBuild w opts df args).2.
Proof.
  intros Hbk. unfold runBuildKitBuild. destruct (client_New w); [constructor|].
  apply bind_Forall; [by repeat constructor|]. intros _ _.
  destruct (eg_Wait w _ _); [constructor|]. destruct (bc_Solve w _); constructor.
Qed.

Ltac allowed_step :=
  lazymatch goal with
  | |- Forall _ (emit _ ≫= _).2 =>
      apply bind_Forall; [repeat constructor; simpl; auto | intros ? _]
  | |- Forall _ (when ?b _ ≫= _).2 =>
      apply bind_Forall;
      [destruct b eqn:?; repeat constructor; simpl; auto | intros ? _]
  | |- Forall _ (return_ _ _ _).2 => constructor
  | |- Forall _ (os_Exit _).2 => constructor
  | |- Forall _ (mret _).2 => constructor
  end.

Lemma Run_publish_allowed w opts fuel imageID :
  Forall (allowed w opts) (Run_publish w opts fuel imageID).2.
Proof.
  unfold Run_publish. apply bind_Forall.
  - destruct (Publish opts) eqn:Hpub; [|constructor].
    allowed_step. apply bind_Forall; [by apply pushToFly_allowed|].
    intros [e|] _; repeat allowed_step.
  - intros _ _. destruct (docker_ImageInspectWithRaw w imageID); constructor.
Qed.

Lemma Run_build_allowed w opts fuel df rel bk bctx :
  buildkitEnabled w = Ok bk →
  Forall (allowed w opts) (Run_build w opts fuel df rel bk bctx).2.
Proof.
  intros Hbk. unfold Run_build. allowed_step.
  destruct (docker_Info w) as [info|e]; [|by repeat allowed_step].
  allowed_step. unfold normalizeBuildArgsForDocker.
  apply bind_Forall.
  - destruct bk.
    + apply bind_Forall; [by apply runBuildKitBuild_allowed|].
      intros [id|e] _; by repeat allowed_step.
    + apply bind_Forall; [by apply runClassicBuild_allowed|].
      intros [id|e] _; by repeat allowed_step.
  - intros id _. repeat allowed_step. apply Run_publish_allowed.
Qed.

Lemma Run_init_allowed w opts fuel df rel :
  Forall (allowed w opts) (Run_init w opts fuel df rel).2.
Proof.
  unfold Run_init. allowed_step.
  destruct (buildFn w) as [e|] eqn:Hfn; [by repeat allowed_step|].
  apply defer_Forall; [|by repeat constructor].
  destruct (buildkitEnabled w) as [bk|e] eqn:Hbk; [|by repeat allowed_step].
  allowed_step.
  apply defer_Forall; [|destruct (IsLocal w) eqn:?; by repeat constructor].
  apply bind_Forall.
  - destruct bk; cbn [negb]; [constructor|].
    allowed_step.
    destruct (makeBuildContext w df opts (IsRemote w)); by repeat allowed_step.
  - intros bctx _. by apply Run_build_allowed.
Qed.

Lemma Run_allowed w opts fuel :
  Forall (allowed w opts) (Run w opts fuel).2.
Proof.
  unfold Run. allowed_step.
  destruct (mode_IsAvailable w); cbn [negb]; [|by repeat allowed_step].
  apply bind_Forall.
  - destruct (String.eqb (DockerfilePath opts) ""); cbn [negb]; [constructor|].
    destruct (FileExists w (DockerfilePath opts)); cbn [negb]; by repeat allowed_step.
  - intros df _. destruct (String.eqb df ""); [by repeat allowed_step|].
    destruct (relDockerfile w opts df); [apply Run_init_allowed | constructor].
Qed.



(** X20. [Run] pushes only when the publish flag is set, and then only
    the requested tag: a push request, a retry, a delay or a push timer in
    the log of a run means that publish was set. *)
Theorem Run_pushes_only_when_publishing w opts fuel e :
  e ∈ (Run w opts fuel).2 →
  match e with
  | ImagePushCall tag _ => Publish opts = true ∧ tag = Tag opts
  | Start Push | Finish Push | OnRetry _ _ | Sleep _ => Publish opts = true
  | _ => True
  end.
Proof.
  intros Hin. pose proof (Run_allowed w opts fuel) as Hall.
  rewrite Forall_forall in Hall. specialize (Hall _ Hin).
  destruct e as [[]|[]| | | | | | | | | |]; simpl in *; tauto.
Qed.

Lemma Run_pushes_only_when_publishing_witness :
  ImagePushCall "img:1" "fly-token" ∈
    (Run flaky_push (spec_img1 "/app" "/app/Dockerfile" true) 3).2 ∧
  Publish (spec_img1 "/app" "/app/Dockerfile" true) = true ∧
  (∀ tag auth, ImagePushCall tag auth ∉
                 (Run flaky_push (spec_img1 "/app" "/app/Dockerfile" false) 3).2).
Proof.
  assert (ImagePushCall "img:1" "fly-token" ∈
            (Run flaky_push (spec_img1 "/app" "/app/Dockerfile" true) 3).2) as Hin.
  { vm_compute. do 13 apply list_elem_of_further. apply list_elem_of_here. }
  split; [exact Hin|]. split.
  - exact (proj1 (Run_pushes_only_when_publishing flaky_push _ 3 _ Hin)).
  - intros tag auth Hc.
    destruct (Run_pushes_only_when_publishing flaky_push _ 3 _ Hc) as [Hp _].
    discriminate Hp.
Defined.

(** X21. A run of [Run] uses the driver that the daemon selects and no
    other: the build context is made and the classic build is requested
    only when the daemon has no buildkit, the solve is requested only when
    it has, and no run does both. *)
Theorem Run_uses_one_driver w opts fuel :
  (∀ r o, ImageBuildCall r o ∈ (Run w opts fuel).2 → buildkitEnabled w = Ok false) ∧
  (Start ContextBuild ∈ (Run w opts fuel).2 → buildkitEnabled w = Ok false) ∧
  (∀ o, SolveCall o ∈ (Run w opts fuel).2 → buildkitEnabled w = Ok true) ∧
  (∀ r o o', ImageBuildCall r o ∈ (Run w opts fuel).2 →
             SolveCall o' ∈ (Run w opts fuel).2 → False).
Proof.
  pose proof (Run_allowed w opts fuel) as Hall. rewrite Forall_forall in Hall.
  split_and!.
  - intros r o Hin. exact (Hall _ Hin).
  - intros Hin. exact (Hall _ Hin).
  - intros o Hin. exact (Hall _ Hin).
  - intros r o o' H1 H2. pose proof (Hall _ H1) as Hc. pose proof (Hall _ H2) as Hs.
    simpl in Hc, Hs. congruence.
Qed.

Lemma Run_uses_one_driver_witness :
  (∃ o, SolveCall o ∈ (Run buildkit_host (spec_img1 "/app" "/app/Dockerfile" false) 1).2) ∧
  buildkitEnabled buildkit_host = Ok true ∧
  (∀ r o, ImageBuildCall r o ∉
            (Run buildkit_host (spec_img1 "/app" "/app/Dockerfile" false) 1).2).
Proof.
  assert (SolveCall (session_request buildkit_host
                       (spec_img1 "/app" "/app/Dockerfile" false) "/app/Dockerfile"
                       (Some <$> ∅)) ∈
            (Run buildkit_host (spec_img1 "/app" "/app/Dockerfile" false) 1).2) as Hin.
  { vm_compute. do 5 apply list_elem_of_further. apply list_elem_of_here. }
  split; [eexists; exact Hin|].
  destruct (Run_uses_one_driver buildkit_host
              (spec_img1 "/app" "/app/Dockerfile" false) 1) as (Hc & _ & Hs & _).
  split; [exact (Hs _ Hin)|].
  intros r o Hb. specialize (Hc r o Hb). discriminate Hc.
Defined.

(** X22. On the session path with publish unset: when the client is made,
    the progress display ends without error and the solve answers with
    image digest [digest], [Run] returns the image that the daemon reports
    for that digest, under the requested tag.  No build context is made,
    the timers of the builder and of the image build are closed, and the
    deferred calls follow the return. *)
Theorem Run_session_returns_handle w opts fuel df rel info response digest img :
  mode_IsAvailable w = true →
  (DockerfilePath opts = df ∧ FileExists w df = true) ∨
  (DockerfilePath opts = "" ∧ ResolveDockerfile w (WorkingDir opts) = df) →
  df ≠ "" →
  relDockerfile w opts df = Ok rel →
  buildFn w = None →
  buildkitEnabled w = Ok true →
  docker_Info w = Ok info →
  client_New w = None →
  DisplaySolveStatus w = None →
  bc_Solve w (session_request w opts df (Some <$> BuildArgs opts)) = Ok response →
  response !! "containerimage.digest" = Some digest →
  Publish opts = false →
  docker_ImageInspectWithRaw w digest = Ok img →
  exec (Run w opts fuel) =
    (Some (Returned (Some {| ID := ii_ID img; di_Tag := Tag opts; Size := ii_Size img |})
             "" None),
     [Start Build; Start BuilderInit; Finish BuilderInit; Start ImageBuild;
      Done ("docker host: " +:+ ServerVersion info +:+ " " +:+ OSType info +:+
            " " +:+ Architecture info);
      SolveCall (session_request w opts df (Some <$> BuildArgs opts));
      Finish ImageBuild; Finish Build; Done "Building image done"] ++
     (if IsLocal w then [ClearDeploymentTags (Tag opts)] else []) ++ [DockerClose]).
Proof.
  intros Hav Hdf Hne Hrel Hfn Hbk Hinfo Hnew Hdisp Hsolve Hdig Hpub Hinsp.
  unfold Run. rewrite Hav. simpl negb. cbv iota.
  assert ((if negb (String.eqb (DockerfilePath opts) "")
           then if negb (FileExists w (DockerfilePath opts))
                then emit (Finish Build);;
                     return_ None ""
                       (Some (Opaque ("dockerfile '" +:+ DockerfilePath opts +:+
                                      "' not found")))
                else mret (DockerfilePath opts)
           else mret (ResolveDockerfile w (WorkingDir opts)))
          = ((Next df, []) : prog string)) as ->.
  { destruct Hdf as [[<- Hex] | [-> <-]]; [|done].
    apply String.eqb_neq in Hne. by rewrite Hne, Hex. }
  apply String.eqb_neq in Hne. simpl. rewrite Hne, Hrel.
  unfold Run_init, Run_build, runBuildKitBuild, Run_publish.
  rewrite Hfn, Hbk, Hinfo, Hnew, normalizeBuildArgsForDocker_resolved, Hpub.
  unfold session_request in Hsolve. simpl in Hsolve. simpl.
  rewrite Hsolve, Hdisp. unfold ExporterImageDigestKey. rewrite Hdig.
  simpl. rewrite Hinsp. simpl.
  destruct (IsLocal w); reflexivity.
Qed.

Lemma Run_session_returns_handle_witness :
  exec (Run buildkit_host (spec_img1 "/app" "/app/Dockerfile" false) 1) =
    (Some (Returned (Some {| ID := "sha256:abc"; di_Tag := "img:1"; Size := 1024 |})
             "" None),
     [Start Build; Start BuilderInit; Finish BuilderInit; Start ImageBuild;
      Done "docker host: 24.0.7 linux x86_64";
      SolveCall (session_request buildkit_host
                   (spec_img1 "/app" "/app/Dockerfile" false) "/app/Dockerfile"
                   (Some <$> ∅));
      Finish ImageBuild; Finish Build; Done "Building image done";
      ClearDeploymentTags "img:1"; DockerClose]).
Proof.
  refine (Run_session_returns_handle buildkit_host
            (spec_img1 "/app" "/app/Dockerfile" false) 1
            "/app/Dockerfile" "Dockerfile"
            {| ServerVersion := "24.0.7"; OSType := "linux";
               Architecture := "x86_64"; OSVersion := "" |}
            {[ "containerimage.digest" := "sha256:abc" ]} "sha256:abc"
            {| ii_ID := "sha256:abc"; ii_Size := 1024 |}
            _ _ _ _ _ _ _ _ _ _ _ _ _);
    try reflexivity.
  - left. split; reflexivity.
  - discriminate.
Defined.

Lemma defer_returned {A} (d : log) (body : prog A) img wn e l :
  defer_ d body = (Stop (Returned img wn e), l) →
  ∃ l0, body = (Stop (Returned img wn e), l0) ∧ l = l0 ++ d.
Proof.
  unfold defer_. destruct body as [[a|[img' wn' e'|code]|] l0]; intros [=]; subst; eauto.
Qed.

(** X23. When the builder was connected, every return of [Run] is
    followed by the deferred close of the connection: the close is the last
    thing in the log of a run that returns, whether with an image or with
    an error. *)
Theorem Run_closes_connection_on_return w opts fuel img warning err l :
  Run w opts fuel = (Stop (Returned img warning err), l) →
  Start BuilderInit ∈ l →
  buildFn w = None →
  last l = Some DockerClose.
Proof.
  intros HR Hin Hfn. unfold Run in HR. unfold mret, prog_ret, return_ in HR.
  apply bind_inv in HR as [(? & l1 & l2 & [= _ <-] & HR & ->) | [(? & [=] & _) | [[=] _]]].
  assert (∀ l', Start BuilderInit ∈ [Start Build] ++ l' → l' ≠ [] ∧
                (l' = [Finish Build] → False)) as Hreach.
  { intros l' H. split; intros ->; simpl in H;
      repeat (apply elem_of_cons in H as [[=] | H]); by apply elem_of_nil in H. }
  destruct (mode_IsAvailable w); simpl negb in HR; cbv iota in HR.
  2:{ simpl in HR. injection HR as _ <-. by destruct (Hreach _ Hin) as [_ []]. }
  apply bind_inv in HR as [(df & l3 & l4 & Hdf & HR & ->) | [(o' & Hdf & [= <-]) | [Hdf [=]]]].
  - assert (l3 = []) as ->.
    { destruct (String.eqb (DockerfilePath opts) ""); simpl in Hdf; [by simplify_eq|].
      destruct (FileExists w (DockerfilePath opts)); simpl in Hdf; by simplify_eq. }
    clear Hdf. simpl in *. destruct (String.eqb df "").
    { simpl in HR. injection HR as _ <-. by destruct (Hreach _ Hin) as [_ []]. }
    destruct (relDockerfile w opts df) as [rel|e].
    2:{ injection HR as _ <-. by destruct (Hreach _ Hin) as [[] _]. }
    unfold Run_init in HR. rewrite Hfn in HR.
    apply bind_inv in HR as [(? & l5 & l6 & [= _ <-] & HR & ->) | [(? & [=] & _) | [[=] _]]].
    apply defer_returned in HR as (l0 & _ & ->).
    change (last ((Start Build :: Start BuilderInit :: l0) ++ [DockerClose])
            = Some DockerClose).
    apply last_snoc.
  - destruct (String.eqb (DockerfilePath opts) ""); simpl in Hdf; [by simplify_eq|].
    destruct (FileExists w (DockerfilePath opts)); simpl in Hdf; [by simplify_eq|].
    injection Hdf as _ <-. by destruct (Hreach _ Hin) as [_ []].
Qed.

Lemma Run_closes_connection_on_return_witness :
  last (Run (as_remote app_host) (spec_img1 "/app" "/app/Dockerfile" false) 1).2
    = Some DockerClose.
Proof.
  refine (Run_closes_connection_on_return (as_remote app_host)
            (spec_img1 "/app" "/app/Dockerfile" false) 1
            (Some {| ID := "sha256:abc"; di_Tag := "img:1"; Size := 1024 |}) "" None
            _ _ _ eq_refl).
  - vm_compute. reflexivity.
  - vm_compute. apply list_elem_of_further, list_elem_of_here.
Defined.
